(** * Asset staging (packages/@aws-cdk/core/lib/asset-staging.ts)

    A shallow embedding of the staging engine: the memo [Cache], the
    hash-type resolution [determineHashType], the hash computation
    [calculateHash], the placement primitive [stageAsset], the bundling
    life cycle [bundle], the two staging paths [stageByCopying] and
    [stageByBundling], and the cache-key normalisation [sortObject] /
    [calculateCacheKey].

    JavaScript values are modelled as the code uses them: an optional
    parameter is an [option], a truthiness test on a string is the test
    "defined and not empty", an exception is a [Throw] result. *)

From Stdlib Require Import String Ascii ZArith List Bool Lia.
From stdpp Require Import base tactics option list strings gmap sorting pretty.

Local Open Scope string_scope.

(** ** JavaScript truthiness *)

(** [if (x)] on a value of type [A | undefined]. *)
Class Truthy (A : Type) := truthy : A → bool.

(** A string is truthy unless it is empty. *)
#[global] Instance string_truthy : Truthy string :=
  fun s => match s with EmptyString => false | String _ _ => true end.

(** [undefined] is falsy, a defined value has the truthiness of its type. *)
#[global] Instance option_truthy {A} `{Truthy A} : Truthy (option A) :=
  fun o => match o with None => false | Some a => truthy a end.

(** [a ?? b]: only [undefined] (or [null]) selects the right operand. *)
Definition nullish {A} (a : option A) (b : A) : A :=
  match a with Some x => x | None => b end.

(** ** Hash types and errors *)

(** [AssetHashType] of ./assets. *)
Inductive AssetHashType : Type := SOURCE | BUNDLE | OUTPUT | CUSTOM.

#[global] Instance AssetHashType_eq_dec : EqDecision AssetHashType.
Proof. solve_decision. Defined.

(** The exceptions of the module, one constructor per [throw] site, and
    the errors raised by the runtime and by the collaborators. *)
Inductive Exn : Type :=
| HashTypeWithAssetHash (assetHashType : option AssetHashType)
    (* determineHashType: Cannot specify `..` for `assetHashType` when
       `assetHash` is specified *)
| AssetHashRequired
    (* determineHashType: `assetHash` must be specified when
       `assetHashType` is set to `AssetHashType.CUSTOM` *)
| HashTypeNeedsBundling (hashType : AssetHashType)
    (* calculateHash: Cannot use `..` hash type when `bundling` is not
       specified *)
| UnknownHashType
    (* calculateHash: Unknown asset hash type. *)
| UnknownFileType (sourcePath : string)
    (* stageAsset: Unknown file type: .. *)
| BundleFailed (nodePath bundleErrorDir : string) (err : Exn)
    (* bundle: Failed to bundle asset .., bundle output is located at ..: .. *)
| BundleEmpty (outputDir : string)
    (* bundle: Bundling did not produce any output. Check that content is
       written to .. *)
| TypeError (what : string)
    (* raised by the JavaScript runtime *)
| SystemError (code path : string)
    (* raised by fs: ENOENT, EEXIST, ... *)
| Foreign (text : string).
    (* raised by a collaborator, with its rendering as a string *)

Inductive Result (A : Type) : Type :=
| Ok (a : A)
| Throw (e : Exn).
Arguments Ok {A} a.
Arguments Throw {A} e.

Definition is_throw {A} (r : Result A) : bool :=
  match r with Throw _ => true | Ok _ => false end.

Section Message.
(** The string value of an [AssetHashType] member, declared in ./assets. *)
Variable hashTypeValue : AssetHashType → string.

Definition render_hashType (o : option AssetHashType) : string :=
  match o with Some t => hashTypeValue t | None => "undefined" end.

(** [err.message], and [`${err}`] for the cause of a bundling failure. *)
Fixpoint message (e : Exn) : string :=
  match e with
  | HashTypeWithAssetHash t =>
      "Cannot specify `" +:+ render_hashType t +:+
      "` for `assetHashType` when `assetHash` is specified. Use `CUSTOM` or leave `undefined`."
  | AssetHashRequired =>
      "`assetHash` must be specified when `assetHashType` is set to `AssetHashType.CUSTOM`."
  | HashTypeNeedsBundling t =>
      "Cannot use `" +:+ hashTypeValue t +:+
      "` hash type when `bundling` is not specified."
  | UnknownHashType => "Unknown asset hash type."
  | UnknownFileType p => "Unknown file type: " +:+ p
  | BundleFailed nodePath bundleErrorDir err =>
      "Failed to bundle asset " +:+ nodePath +:+
      ", bundle output is located at " +:+ bundleErrorDir +:+ ": " +:+
      match err with
      | Foreign text => text
      | TypeError what => "TypeError: " +:+ what
      | _ => "Error: " +:+ message err
      end
  | BundleEmpty outputDir =>
      "Bundling did not produce any output. Check that content is written to "
      +:+ outputDir +:+ "."
  | TypeError what => what
  | SystemError code path => code +:+ ": " +:+ path
  | Foreign text => text
  end.
End Message.

(** ** determineHashType *)

(** [determineHashType(assetHashType?, customSourceFingerprint?)].  The
    seed is tested for truthiness: an empty string counts as not given. *)
Definition determineHashType (assetHashType : option AssetHashType)
    (customSourceFingerprint : option string) : Result AssetHashType :=
  let hashType :=
    if truthy customSourceFingerprint
    then nullish assetHashType CUSTOM
    else nullish assetHashType SOURCE in
  if truthy customSourceFingerprint && negb (bool_decide (hashType = CUSTOM))
  then Throw (HashTypeWithAssetHash assetHashType)
  else if bool_decide (hashType = CUSTOM) && negb (truthy customSourceFingerprint)
  then Throw AssetHashRequired
  else Ok hashType.

(** [renderAssetFilename(assetHash, extension = '')]. *)
Definition renderAssetFilename (assetHash : string) (extension : string) : string :=
  "asset." +:+ assetHash +:+ extension.

(** ** The file system

    Paths are the absolute, normalised strings the module builds with
    [path.resolve].  The file system records what sits at each such path;
    a directory carries the entries below it, so removing or renaming a
    path takes its whole subtree along.  Parent directories are not
    tracked. *)

Inductive Node : Type :=
| File (mode : N) (content : string)
| Dir (mode : N) (entries : list (string * Node))
| Special (mode : N).  (* a socket, a FIFO, a device *)

Definition chmod_node (mode : N) (n : Node) : Node :=
  match n with
  | File _ c => File mode c
  | Dir _ es => Dir mode es
  | Special _ => Special mode
  end.

(** [FingerprintOptions] of ./fs, with the fields this module names. *)
Record FingerprintOptions : Type := {
  extraHash : option string;
  exclude : option (list string);
}.

Record DockerVolume : Type := {
  hostPath : string;
  containerPath : string;
}.

(** The argument of [image.run]. *)
Record DockerRunOptions : Type := {
  run_command : option (list string);
  run_user : string;
  run_volumes : list DockerVolume;
  run_environment : option (list (string * string));
  run_workingDirectory : string;
}.

(** Calls to collaborators whose effect lies outside the file system. *)
Inductive Event : Type :=
| StderrWrite (text : string)
| TryBundle (outputDir : string)
| ImageRun (options : DockerRunOptions)
| CopyFile (src dst : string)
| CopyDirectory (src dst : string).

Record World : Type := {
  files : gmap string Node;
  trace : list Event;
}.

Definition set_files (f : gmap string Node → gmap string Node) (w : World) : World :=
  {| files := f (files w); trace := trace w |}.

Definition log (e : Event) (w : World) : World :=
  {| files := files w; trace := (trace w ++ [e])%list |}.

(** ** Stateful, fallible computations *)

Definition St (S A : Type) : Type := S → Result A * S.

#[global] Instance St_ret {S} : MRet (St S) := fun A a s => (Ok a, s).

#[global] Instance St_bind {S} : MBind (St S) := fun A B f m s =>
  match m s with
  | (Ok a, s') => f a s'
  | (Throw e, s') => (Throw e, s')
  end.

#[global] Instance St_fmap {S} : FMap (St S) := fun A B f m s =>
  match m s with
  | (Ok a, s') => (Ok (f a), s')
  | (Throw e, s') => (Throw e, s')
  end.

#[global] Instance Result_fmap : FMap Result := fun A B f r =>
  match r with
  | Ok a => Ok (f a)
  | Throw e => Throw e
  end.

Definition throw {S A} (e : Exn) : St S A := fun s => (Throw e, s).

(** [try { body } catch (err) { handler }]. *)
Definition try_catch {S A} (body : St S A) (handler : Exn → St S A) : St S A :=
  fun s =>
    match body s with
    | (Ok a, s') => (Ok a, s')
    | (Throw e, s') => handler e s'
    end.

Abbreviation M := (St World).

(** A collaborator that acts on the file system only. *)
Definition on_files {A} (f : gmap string Node → Result A * gmap string Node) : M A :=
  fun w => let '(r, fs) := f (files w) in (r, {| files := fs; trace := trace w |}).

Definition emit (e : Event) : M unit := fun w => (Ok (), log e w).

(** *** fs-extra *)

Definition default_dir_mode : N := 493. (* 0o755: 0o777 under umask 022 *)

Definition existsSync (p : string) : M bool :=
  fun w => (Ok (bool_decide (is_Some (files w !! p))), w).

(** [fs.removeSync]: like [rm -rf], silent on a missing path. *)
Definition removeSync (p : string) : M unit :=
  fun w => (Ok (), set_files (delete p) w).

(** [fs.renameSync]: rename(2). *)
Definition renameSync (src dst : string) : M unit :=
  fun w =>
    match files w !! src with
    | None => (Throw (SystemError "ENOENT" src), w)
    | Some n =>
        if bool_decide (src = dst) then (Ok (), w) else
        let moved := set_files (fun fs => <[dst := n]> (delete src fs)) w in
        match files w !! dst, n with
        | None, _ => (Ok (), moved)
        | Some (Dir _ []), Dir _ _ => (Ok (), moved)
        | Some (Dir _ (_ :: _)), Dir _ _ => (Throw (SystemError "ENOTEMPTY" dst), w)
        | Some _, Dir _ _ => (Throw (SystemError "ENOTDIR" dst), w)
        | Some (Dir _ _), _ => (Throw (SystemError "EISDIR" dst), w)
        | Some _, _ => (Ok (), moved)
        end
    end.

Definition statSync (p : string) : M Node :=
  fun w =>
    match files w !! p with
    | Some n => (Ok n, w)
    | None => (Throw (SystemError "ENOENT" p), w)
    end.

Definition copyFileSync (src dst : string) : M unit :=
  fun w =>
    match files w !! src with
    | None => (Throw (SystemError "ENOENT" src), w)
    | Some (File m c) =>
        match files w !! dst with
        | Some (Dir _ _) => (Throw (SystemError "EISDIR" dst), w)
        | Some (File m' _) =>
            (Ok (), log (CopyFile src dst) (set_files <[dst := File m' c]> w))
        | _ => (Ok (), log (CopyFile src dst) (set_files <[dst := File m c]> w))
        end
    | Some (Dir _ _) => (Throw (SystemError "EISDIR" src), w)
    | Some (Special _) => (Throw (SystemError "ENOTSUP" src), w)
    end.

Definition mkdirSync (p : string) : M unit :=
  fun w =>
    match files w !! p with
    | Some _ => (Throw (SystemError "EEXIST" p), w)
    | None => (Ok (), set_files <[p := Dir default_dir_mode []]> w)
    end.

(** [fs.ensureDirSync]: like [mkdir -p]. *)
Definition ensureDirSync (p : string) : M unit :=
  fun w =>
    match files w !! p with
    | None => (Ok (), set_files <[p := Dir default_dir_mode []]> w)
    | Some (Dir _ _) => (Ok (), w)
    | Some _ => (Throw (SystemError "ENOTDIR" p), w)
    end.

Definition chmodSync (p : string) (mode : N) : M unit :=
  fun w =>
    match files w !! p with
    | Some n => (Ok (), set_files <[p := chmod_node mode n]> w)
    | None => (Throw (SystemError "ENOENT" p), w)
    end.

Definition stderr_write (text : string) : M unit := emit (StderrWrite text).

(** ** Bundling options (./bundling) *)

(** [ILocalBundling.tryBundle(outputDir, options)]; the bundler belongs to
    the options it is handed, so it is modelled as closed over them. *)
Record ILocalBundling : Type := {
  tryBundle : string → gmap string Node → Result bool * gmap string Node;
}.

(** [BundlingDockerImage.run(options)]. *)
Record BundlingDockerImage : Type := {
  run : DockerRunOptions → gmap string Node → Result unit * gmap string Node;
}.

Record BundlingOptions : Type := {
  image : BundlingDockerImage;
  command : option (list string);
  volumes : option (list DockerVolume);
  environment : option (list (string * string));
  workingDirectory : option string;
  user : option string;
  local : option ILocalBundling;
}.

(** ** Collaborators

    What the module consumes from Node's [crypto], [path] and [os], from
    [JSON] and from ./fs. *)
Class Collaborators : Type := {
  (** [crypto.createHash('sha256').update(s).digest('hex')]; successive
      [update]s concatenate. *)
  sha256_hex : string → string;
  sha256_hex_length : ∀ s, String.length (sha256_hex s) = 64;
  (** [JSON.stringify(bundling)]. *)
  stringify_bundling : BundlingOptions → string;
  (** [path.resolve(dir, name)] and [path.extname(p)]. *)
  path_resolve : string → string → string;
  path_extname : string → string;
  (** [os.userInfo()]: uid and gid. *)
  os_userInfo : Z * Z;
  (** [FileSystem.fingerprint], [FileSystem.copyDirectory] and
      [FileSystem.isEmpty] of ./fs. *)
  fingerprint : gmap string Node → string → FingerprintOptions → Result string;
  copyDirectory : string → string → FingerprintOptions →
                  gmap string Node → Result unit * gmap string Node;
  isEmpty : gmap string Node → string → Result bool;
}.

(** ** The staging engine *)

(** The fields of an [AssetStaging] instance the methods read. *)
Record AssetStaging : Type := {
  sourcePath : string;
  fingerprintOptions : FingerprintOptions;
  hashType : AssetHashType;
  outdir : string;
  customSourceFingerprint : option string;
  cacheKey : string;
  node_path : string;  (* this.node.path *)
}.

(** [StagedAsset]. *)
Record StagedAsset : Type := {
  stagedPath : string;
  assetHash : string;
}.

(** An object is always truthy. *)
#[global] Instance StagedAsset_truthy : Truthy StagedAsset := fun _ => true.

#[global] Instance bool_truthy : Truthy bool := fun b => b.

Inductive Style : Type := move | copy.

#[global] Instance Style_eq_dec : EqDecision Style.
Proof. solve_decision. Defined.

Definition BUNDLING_INPUT_DIR : string := "/asset-input".
Definition BUNDLING_OUTPUT_DIR : string := "/asset-output".

Definition newline : string := String (ascii_of_nat 10) EmptyString.

Section Engine.
Context `{Collaborators}.

Definition FileSystem_fingerprint (p : string) (o : FingerprintOptions) : M string :=
  fun w => (fingerprint (files w) p o, w).

Definition FileSystem_copyDirectory (src dst : string) (o : FingerprintOptions) : M unit :=
  emit (CopyDirectory src dst);; on_files (copyDirectory src dst o).

Definition FileSystem_isEmpty (p : string) : M bool :=
  fun w => (isEmpty (files w) p, w).

(** [calculateHash(hashType, bundling?, outputDir?)]. *)
Definition calculateHash (this : AssetStaging) (hashType : AssetHashType)
    (bundling : option BundlingOptions) (outputDir : option string) : M string :=
  if bool_decide (hashType = CUSTOM)
     || (bool_decide (hashType = SOURCE) && bool_decide (is_Some bundling))
  then
    seed ← match customSourceFingerprint this with
           | Some s => mret s
           | None => FileSystem_fingerprint (sourcePath this) (fingerprintOptions this)
           end;
    mret (sha256_hex (seed +:+
            match bundling with
            | Some b => stringify_bundling b
            | None => EmptyString
            end))
  else
    match hashType with
    | SOURCE => FileSystem_fingerprint (sourcePath this) (fingerprintOptions this)
    | BUNDLE | OUTPUT =>
        match outputDir with
        | Some d =>
            if truthy d
            then FileSystem_fingerprint d (fingerprintOptions this)
            else throw (HashTypeNeedsBundling hashType)
        | None => throw (HashTypeNeedsBundling hashType)
        end
    | CUSTOM => throw UnknownHashType
    end.

(** [stageAsset(sourcePath, targetPath, style)]. *)
Definition stageAsset (this : AssetStaging) (sourcePath targetPath : string)
    (style : Style) : M unit :=
  isAlreadyStaged ← existsSync targetPath;
  if isAlreadyStaged : bool then
    if bool_decide (style = move) && negb (bool_decide (sourcePath = targetPath))
    then removeSync sourcePath
    else mret ()
  else if bool_decide (style = move) then
    renameSync sourcePath targetPath
  else
    stat ← statSync sourcePath;
    match stat with
    | File _ _ => copyFileSync sourcePath targetPath
    | Dir _ _ =>
        mkdirSync targetPath;;
        FileSystem_copyDirectory sourcePath targetPath (fingerprintOptions this)
    | Special _ => throw (UnknownFileType sourcePath)
    end.

(** [determineBundleDir(outdir, sourceHash?)]. *)
Definition determineBundleDir (this : AssetStaging) (outdir : string)
    (sourceHash : option string) : string :=
  match sourceHash with
  | Some h =>
      if truthy h
      then path_resolve outdir (renderAssetFilename h EmptyString)
      else path_resolve outdir ("bundling-temp-" +:+ cacheKey this)
  | None => path_resolve outdir ("bundling-temp-" +:+ cacheKey this)
  end.

(** The user the bundling container runs as by default. *)
Definition current_user : string :=
  let '(uid, gid) := os_userInfo in
  if bool_decide (uid ≠ (-1)%Z)
  then pretty uid +:+ ":" +:+ pretty gid
  else "1000:1000".

(** The [user] of [bundle]: the one given, or else the current user. *)
Definition bundle_user (options : BundlingOptions) : string :=
  match user options with
  | Some u => if truthy u then u else current_user
  | None => current_user
  end.

(** The [volumes] of [bundle]: input and output are always mounted. *)
Definition bundle_volumes (this : AssetStaging) (options : BundlingOptions)
    (bundleDir : string) : list DockerVolume :=
  ([ {| hostPath := sourcePath this; containerPath := BUNDLING_INPUT_DIR |};
     {| hostPath := bundleDir; containerPath := BUNDLING_OUTPUT_DIR |} ]
   ++ nullish (volumes options) [])%list.

(** The [try] block of [bundle]; its value is [localBundling]. *)
Definition bundle_try (this : AssetStaging) (options : BundlingOptions)
    (bundleDir : string) : M (option bool) :=
  stderr_write ("Bundling asset " +:+ node_path this +:+ "..." +:+ newline);;
  localBundling ←
    match local options with
    | Some l =>
        emit (TryBundle bundleDir);;
        b ← on_files (tryBundle l bundleDir); mret (Some b)
    | None => mret None
    end;
  (if negb (truthy (localBundling : option bool)) then
     let options' :=
       {| run_command := command options;
          run_user := bundle_user options;
          run_volumes := bundle_volumes this options bundleDir;
          run_environment := environment options;
          run_workingDirectory :=
            nullish (workingDirectory options) BUNDLING_INPUT_DIR |} in
     emit (ImageRun options');;
     on_files (run (image options) options')
   else mret ());;
  mret localBundling.

(** The [catch (err)] block of [bundle]. *)
Definition bundle_catch (this : AssetStaging) (bundleDir : string) (err : Exn)
  : M (option bool) :=
  let bundleErrorDir := bundleDir +:+ "-error" in
  stale ← existsSync bundleErrorDir;
  (if stale : bool then removeSync bundleErrorDir else mret ());;
  renameSync bundleDir bundleErrorDir;;
  throw (BundleFailed (node_path this) bundleErrorDir err).

(** [bundle(options, bundleDir)]. *)
Definition bundle (this : AssetStaging) (options : BundlingOptions)
    (bundleDir : string) : M unit :=
  present ← existsSync bundleDir;
  if present : bool then mret () else
  ensureDirSync bundleDir;;
  chmodSync bundleDir 511;; (* 0o777 *)
  localBundling ←
    try_catch (bundle_try this options bundleDir) (bundle_catch this bundleDir);
  empty ← FileSystem_isEmpty bundleDir;
  if empty : bool then
    let outputDir := if truthy localBundling then bundleDir else BUNDLING_OUTPUT_DIR in
    throw (BundleEmpty outputDir)
  else mret ().

(** [stageByCopying(skip)]. *)
Definition stageByCopying (this : AssetStaging) (skip : bool) : M StagedAsset :=
  assetHash ← calculateHash this (hashType this) None None;
  let stagedPath :=
    if skip then sourcePath this
    else path_resolve (outdir this)
           (renderAssetFilename assetHash (path_extname (sourcePath this))) in
  stageAsset this (sourcePath this) stagedPath copy;;
  mret {| assetHash := assetHash; stagedPath := stagedPath |}.

(** [stageByBundling(bundling, skip)]. *)
Definition stageByBundling (this : AssetStaging) (bundling : BundlingOptions)
    (skip : bool) : M StagedAsset :=
  if skip then
    assetHash ← calculateHash this SOURCE None None;
    mret {| assetHash := assetHash; stagedPath := sourcePath this |}
  else
    assetHash0 ←
      (if bool_decide (hashType this = SOURCE) || bool_decide (hashType this = CUSTOM)
       then h ← calculateHash this (hashType this) (Some bundling) None; mret (Some h)
       else mret None);
    let bundleDir := determineBundleDir this (outdir this) assetHash0 in
    bundle this bundling bundleDir;;
    assetHash ←
      match assetHash0 with
      | Some h => mret h
      | None => calculateHash this (hashType this) (Some bundling) (Some bundleDir)
      end;
    let stagedPath :=
      path_resolve (outdir this) (renderAssetFilename assetHash EmptyString) in
    stageAsset this bundleDir stagedPath move;;
    mret {| assetHash := assetHash; stagedPath := stagedPath |}.

End Engine.

(** ** The memo: [Cache<A>] *)

Section Cache.
Context {A W : Type} `{Truthy A}.

(** The state of a program that owns a [Cache<A>]: the private map of the
    cache and the rest of the world, on which [calcFn] acts. *)
Definition clear : St (gmap string A * W) unit :=
  fun '(cache, w) => (Ok (), (∅, w)).

(** [obtain(cacheKey, calcFn)]. *)
Definition obtain (cacheKey : string) (calcFn : St W A) : St (gmap string A * W) A :=
  fun '(cache, w) =>
    let old := cache !! cacheKey in
    match old with
    | Some v =>
        if truthy old then (Ok v, (cache, w))
        else
          match calcFn w with
          | (Ok noo, w') => (Ok noo, (<[cacheKey := noo]> cache, w'))
          | (Throw e, w') => (Throw e, (cache, w'))
          end
    | None =>
        match calcFn w with
        | (Ok noo, w') => (Ok noo, (<[cacheKey := noo]> cache, w'))
        | (Throw e, w') => (Throw e, (cache, w'))
        end
    end.

(** [calcFn] with a counter of its invocations added to the world. *)
Definition counted (calcFn : St W A) : St (W * nat) A :=
  fun '(w, n) => let '(r, w') := calcFn w in (r, (w', S n)).

End Cache.

(** ** Cache keys: JavaScript values, [sortObject], [JSON.stringify] *)

(** The values a configuration is built from.  Numbers are the integers;
    the properties of an object are listed in the order [Object.keys]
    enumerates them. *)
Inductive JsValue : Type :=
| JUndefined
| JNull
| JBool (b : bool)
| JNum (n : Z)
| JStr (s : string)
| JArr (elems : list JsValue)
| JObj (props : list (string * JsValue)).

(** *** Own property order

    [Object.keys] lists the array-index keys first, in ascending numeric
    order, and then the other keys in the order they were created. *)

Definition digit_value (c : ascii) : option N :=
  let n := N_of_ascii c in
  if (48 <=? n)%N && (n <=? 57)%N then Some (n - 48)%N else None.

Fixpoint parse_digits (acc : N) (s : string) : option N :=
  match s with
  | EmptyString => Some acc
  | String c s' =>
      match digit_value c with
      | Some d => parse_digits (10 * acc + d)%N s'
      | None => None
      end
  end.

(** A key is an array index when it is the canonical decimal form of an
    integer below 2^32 - 1. *)
Definition array_index (key : string) : option N :=
  match key with
  | EmptyString => None
  | _ =>
      match parse_digits 0 key with
      | Some n =>
          if bool_decide (pretty n = key) && (n <? 4294967295)%N
          then Some n else None
      | None => None
      end
  end.

(** [object[key]]. *)
Fixpoint obj_get (key : string) (o : list (string * JsValue)) : JsValue :=
  match o with
  | [] => JUndefined
  | (k, v) :: o' => if bool_decide (k = key) then v else obj_get key o'
  end.

Fixpoint obj_replace (key : string) (v : JsValue) (o : list (string * JsValue))
  : list (string * JsValue) :=
  match o with
  | [] => []
  | (k, x) :: o' =>
      if bool_decide (k = key) then (k, v) :: o'
      else (k, x) :: obj_replace key v o'
  end.

Fixpoint obj_insert_index (i : N) (key : string) (v : JsValue)
    (o : list (string * JsValue)) : list (string * JsValue) :=
  match o with
  | [] => [(key, v)]
  | (k, x) :: o' =>
      match array_index k with
      | Some j =>
          if (j <? i)%N then (k, x) :: obj_insert_index i key v o'
          else (key, v) :: o
      | None => (key, v) :: o
      end
  end.

(** [object[key] = v] on an object made by [{}], as far as its own
    properties go.  The key [__proto__] is the accessor of
    [Object.prototype]: its setter changes the prototype, or does
    nothing, and makes no own property. *)
Definition obj_set (key : string) (v : JsValue) (o : list (string * JsValue))
  : list (string * JsValue) :=
  if bool_decide (key = "__proto__") then o
  else if bool_decide (key ∈ o.*1) then obj_replace key v o
  else
    match array_index key with
    | Some i => obj_insert_index i key v o
    | None => (o ++ [(key, v)])%list
    end.

(** [Object.keys(null)]. *)
Definition null_to_object : Exn :=
  TypeError "Cannot convert undefined or null to object".

(** The object the loop of [sortObject] builds from the sorted values. *)
Definition rebuild (keys : list string) (sorted : list (string * JsValue))
  : list (string * JsValue) :=
  foldl (fun ret key => obj_set key (obj_get key sorted) ret) []
        (merge_sort String.le keys).

(** [sortObject(object)].  The recursive calls [sortObject(object[key])]
    are made on the properties as listed, and the loop over the sorted
    keys then stores their results. *)
Fixpoint sortObject (object : JsValue) : Result JsValue :=
  match object with
  | JUndefined | JBool _ | JNum _ | JStr _ => Ok object
  | JArr _ => Ok object
  | JNull => Throw null_to_object
  | JObj props =>
      let fix sortProps (ps : list (string * JsValue))
        : Result (list (string * JsValue)) :=
        match ps with
        | [] => Ok []
        | (k, v) :: ps' =>
            match sortObject v with
            | Ok v' =>
                match sortProps ps' with
                | Ok r => Ok ((k, v') :: r)
                | Throw e => Throw e
                end
            | Throw e => Throw e
            end
        end in
      match sortProps props with
      | Ok sorted => Ok (JObj (rebuild props.*1 sorted))
      | Throw e => Throw e
      end
  end.

(** *** JSON.stringify *)

Definition hex_digit (n : N) : ascii :=
  ascii_of_N (if (n <? 10)%N then 48 + n else 87 + n)%N.

Definition json_escape_char (c : ascii) : string :=
  let n := N_of_ascii c in
  let backslash := ascii_of_nat 92 in
  if (n =? 34)%N then String backslash (String c EmptyString)
  else if (n =? 92)%N then String backslash (String backslash EmptyString)
  else if (n =? 8)%N then String backslash "b"
  else if (n =? 9)%N then String backslash "t"
  else if (n =? 10)%N then String backslash "n"
  else if (n =? 12)%N then String backslash "f"
  else if (n =? 13)%N then String backslash "r"
  else if (n <? 32)%N then
    String backslash
      ("u00" +:+ String (hex_digit (n / 16)) (String (hex_digit (n mod 16)) EmptyString))
  else String c EmptyString.

Fixpoint json_escape (s : string) : string :=
  match s with
  | EmptyString => EmptyString
  | String c s' => json_escape_char c +:+ json_escape s'
  end.

Definition json_quote (s : string) : string :=
  let q := String (ascii_of_nat 34) EmptyString in
  q +:+ json_escape s +:+ q.

Fixpoint join (sep : string) (l : list string) : string :=
  match l with
  | [] => EmptyString
  | [x] => x
  | x :: l' => x +:+ sep +:+ join sep l'
  end.

(** [JSON.stringify(v)]; [None] is [undefined].  A property whose value is
    [undefined] is left out, an [undefined] array element reads [null]. *)
Fixpoint stringify (v : JsValue) : option string :=
  match v with
  | JUndefined => None
  | JNull => Some "null"
  | JBool b => Some (if b then "true" else "false")
  | JNum n => Some (pretty n)
  | JStr s => Some (json_quote s)
  | JArr elems =>
      Some ("[" +:+ join "," (map (fun x => default "null" (stringify x)) elems) +:+ "]")
  | JObj props =>
      Some ("{" +:+
            join "," (omap (fun kv : string * JsValue =>
                        match stringify kv.2 with
                        | Some s => Some (json_quote kv.1 +:+ ":" +:+ s)
                        | None => None
                        end) props)
            +:+ "}")
  end.

Section CacheKey.
Context `{Collaborators}.

(** [calculateCacheKey(props)].  [hash.update] rejects [undefined]. *)
Definition calculateCacheKey (props : JsValue) : Result string :=
  match sortObject props with
  | Ok sorted =>
      match stringify sorted with
      | Some s => Ok (sha256_hex s)
      | None => Throw (TypeError "The data argument must be of type string")
      end
  | Throw e => Throw e
  end.

End CacheKey.

(** ** The constructor

    [new AssetStaging(scope, id, props)].  The construct tree is outside
    this module: what it answers the constructor is given as a [Scope]. *)

(** Truthiness of a JavaScript value. *)
Definition js_truthy (v : JsValue) : bool :=
  match v with
  | JUndefined | JNull => false
  | JBool b => b
  | JNum n => negb (n =? 0)%Z
  | JStr s => truthy s
  | JArr _ | JObj _ => true
  end.

(** What the construct tree answers the constructor. *)
Record Scope : Type := {
  scope_assetOutdir : option string;       (* Stage.of(this)?.assetOutdir *)
  scope_bundlingStacks : option (list string);
                                           (* tryGetContext(cxapi.BUNDLING_STACKS) *)
  scope_stackName : string;                (* Stack.of(this).stackName *)
  scope_disableStaging : JsValue;
                          (* tryGetContext(cxapi.DISABLE_ASSET_STAGING_CONTEXT) *)
  scope_path : string;                     (* this.node.path *)
}.

(** [AssetStagingProps]. *)
Record AssetStagingProps : Type := {
  props_sourcePath : string;
  props_fingerprint : FingerprintOptions;
  props_assetHashType : option AssetHashType;
  props_assetHash : option string;
  props_bundling : option BundlingOptions;
}.

(** The constructor throws its own error or passes one on. *)
Inductive ConstructError : Type :=
| NoOutputDirectory
    (* unable to determine cloud assembly output directory. Assets must be
       defined indirectly within a "Stage" or an "App" scope *)
| Raised (e : Exn).

Definition optional_string (o : option string) : JsValue :=
  match o with Some s => JStr s | None => JUndefined end.

Section Constructor.
Context `{Collaborators}.
(** [path.resolve(p)], [minimatch(name, pattern)], the string value of an
    [AssetHashType] member, and the bundling options as a JavaScript
    value. *)
Variable resolve : string → string.
Variable minimatch : string → string → bool.
Variable hashTypeValue : AssetHashType → string.
Variable bundling_value : BundlingOptions → JsValue.

(** The object the cache key is calculated from. *)
Definition cache_key_props (outdir : string) (props : AssetStagingProps)
    (hashType : AssetHashType) (skip : JsValue) : JsValue :=
  JObj [ ("outdir", JStr outdir);
         ("sourcePath", JStr (resolve (props_sourcePath props)));
         ("bundling", match props_bundling props with
                      | Some b => bundling_value b
                      | None => JUndefined
                      end);
         ("assetHashType", JStr (hashTypeValue hashType));
         ("customFingerprint", optional_string (props_assetHash props));
         ("extraHash", optional_string (extraHash (props_fingerprint props)));
         ("exclude", match exclude (props_fingerprint props) with
                     | Some l => JArr (JStr <$> l)
                     | None => JUndefined
                     end);
         ("skip", skip) ].

(** The [skip] of the constructor and, given the instance, its
    [stageThisAsset]. *)
Definition staging_plan (scope : Scope) (props : AssetStagingProps)
  : JsValue * (AssetStaging → M StagedAsset) :=
  match props_bundling props with
  | Some bundling =>
      let bundlingStacks := nullish (scope_bundlingStacks scope) ["*"] in
      let skip :=
        negb (truthy (List.find (fun pattern => minimatch (scope_stackName scope) pattern)
                        bundlingStacks)) in
      (JBool skip, fun this => stageByBundling this bundling skip)
  | None =>
      let skip := scope_disableStaging scope in
      (skip, fun this => stageByCopying this (js_truthy skip))
  end.

(** [new AssetStaging(scope, id, props)], on the memo and the world: the
    instance with its staged asset, or the error thrown. *)
Definition construct (scope : Scope) (props : AssetStagingProps)
  (s : gmap string StagedAsset * World)
  : (ConstructError + AssetStaging * StagedAsset) * (gmap string StagedAsset * World) :=
  match scope_assetOutdir scope with
  | None => (inl NoOutputDirectory, s)
  | Some outdir =>
      if negb (truthy outdir) then (inl NoOutputDirectory, s) else
      match determineHashType (props_assetHashType props) (props_assetHash props) with
      | Throw e => (inl (Raised e), s)
      | Ok hashType =>
          let '(skip, stageThisAsset) := staging_plan scope props in
          match calculateCacheKey (cache_key_props outdir props hashType skip) with
          | Throw e => (inl (Raised e), s)
          | Ok cacheKey =>
              let this :=
                {| sourcePath := resolve (props_sourcePath props);
                   fingerprintOptions := props_fingerprint props;
                   hashType := hashType;
                   outdir := outdir;
                   customSourceFingerprint := props_assetHash props;
                   cacheKey := cacheKey;
                   node_path := scope_path scope |} in
              match obtain cacheKey (stageThisAsset this) s with
              | (Ok staged, s') => (inr (this, staged), s')
              | (Throw e, s') => (inl (Raised e), s')
              end
          end
      end
  end.

End Constructor.

(** *** Equality up to the order of keys *)

(** [key_order_equiv through_arrays a b]: [a] and [b] are the same
    structure up to the order in which the keys of their mappings are
    listed, at any depth; with [through_arrays], also inside the elements
    of sequences, whose own order is kept in both cases. *)
Inductive key_order_equiv (through_arrays : bool) : JsValue → JsValue → Prop :=
| koe_same v : key_order_equiv through_arrays v v
| koe_arr l1 l2 :
    through_arrays = true →
    Forall2 (key_order_equiv through_arrays) l1 l2 →
    key_order_equiv through_arrays (JArr l1) (JArr l2)
| koe_obj p1 p p2 :
    p1 ≡ₚ p →
    Forall2 (fun e1 e2 : string * JsValue =>
               e1.1 = e2.1 ∧ key_order_equiv through_arrays e1.2 e2.2) p p2 →
    key_order_equiv through_arrays (JObj p1) (JObj p2).

(** No object lists a key twice (as in every JavaScript object). *)
Fixpoint unique_keys (v : JsValue) : bool :=
  match v with
  | JObj props =>
      bool_decide (NoDup props.*1)
      && forallb (fun kv : string * JsValue => unique_keys kv.2) props
  | JArr elems => forallb unique_keys elems
  | _ => true
  end.

(** The serialised bytes of the canonical form. *)
Definition canonical_bytes (v : JsValue) : Result (option string) :=
  match sortObject v with
  | Ok sorted => Ok (stringify sorted)
  | Throw e => Throw e
  end.

(** ** Strings *)

Lemma append_cons (c : ascii) (s t : string) :
  String c s +:+ t = String c (s +:+ t).
Proof. reflexivity. Qed.

Lemma append_empty_r (s : string) : s +:+ EmptyString = s.
Proof.
  induction s as [|c s' IH]; [reflexivity | now rewrite append_cons, IH].
Qed.

Lemma append_length (s t : string) :
  String.length (s +:+ t) = String.length s + String.length t.
Proof.
  induction s as [|c s' IH]; [reflexivity |].
  rewrite append_cons. simpl. now rewrite IH.
Qed.

(** Appending a non-empty suffix gives another path. *)
Lemma append_suffix_ne (s t : string) : truthy t = true → s +:+ t ≠ s.
Proof.
  intros Ht Heq. apply (f_equal String.length) in Heq.
  rewrite append_length in Heq. destruct t; [discriminate | simpl in Heq; lia].
Qed.

(** ** A concrete environment

    Simple collaborators on which the statements below are exercised. *)
Module Sample.

(** A stand-in for SHA-256: a rolling checksum of the input, written as
    64 hexadecimal digits. *)
Fixpoint roll (h : N) (s : string) : N :=
  match s with
  | EmptyString => h
  | String c s' => roll ((h * 31 + N_of_ascii c) mod 18446744073709551616)%N s'
  end.

Fixpoint hex_of (digits : nat) (n : N) : string :=
  match digits with
  | O => EmptyString
  | S d =>
      let '(q, r) := N.div_eucl n 16 in
      hex_of d q +:+ String (hex_digit r) EmptyString
  end.

Lemma hex_of_length digits n : String.length (hex_of digits n) = digits.
Proof.
  revert n; induction digits as [|d IH]; intros n; [reflexivity|].
  simpl. destruct (N.div_eucl n 16) as [q r].
  rewrite append_length, IH. simpl. lia.
Qed.

Definition digest (s : string) : string := hex_of 64 (roll 7 s).

Definition entry_names (es : list (string * Node)) : string :=
  join "," es.*1.

Definition sample_fingerprint (fs : gmap string Node) (p : string)
    (o : FingerprintOptions) : Result string :=
  match fs !! p with
  | Some (File _ c) => Ok (digest ("file:" +:+ c))
  | Some (Dir _ es) => Ok (digest ("dir:" +:+ entry_names es))
  | Some (Special _) => Throw (Foreign "cannot fingerprint")
  | None => Throw (SystemError "ENOENT" p)
  end.

Definition sample_copyDirectory (src dst : string) (o : FingerprintOptions)
    (fs : gmap string Node) : Result unit * gmap string Node :=
  match fs !! src with
  | Some (Dir m es) => (Ok (), <[dst := Dir m es]> fs)
  | Some _ => (Throw (SystemError "ENOTDIR" src), fs)
  | None => (Throw (SystemError "ENOENT" src), fs)
  end.

Definition sample_isEmpty (fs : gmap string Node) (p : string) : Result bool :=
  match fs !! p with
  | Some (Dir _ []) => Ok true
  | Some (Dir _ (_ :: _)) => Ok false
  | Some _ => Throw (SystemError "ENOTDIR" p)
  | None => Throw (SystemError "ENOENT" p)
  end.

Definition env : Collaborators := {|
  sha256_hex := digest;
  sha256_hex_length := fun s => hex_of_length 64 (roll 7 s);
  stringify_bundling := fun _ => "{}";
  path_resolve := fun dir name => dir +:+ "/" +:+ name;
  path_extname := fun _ => EmptyString;
  os_userInfo := (1000%Z, 1000%Z);
  fingerprint := sample_fingerprint;
  copyDirectory := sample_copyDirectory;
  isEmpty := sample_isEmpty;
|}.

Definition no_options : FingerprintOptions :=
  {| extraHash := None; exclude := None |}.

(** An asset at [/src/app] staged into [/out]. *)
Definition staging (t : AssetHashType) (seed : option string) : AssetStaging := {|
  sourcePath := "/src/app";
  fingerprintOptions := no_options;
  hashType := t;
  outdir := "/out";
  customSourceFingerprint := seed;
  cacheKey := "k0";
  node_path := "Stack/Asset";
|}.

(** A container image whose run writes [written] into the output volume
    and then succeeds or fails as [outcome] says. *)
Definition image_writing (written : list (string * Node)) (outcome : Result unit)
  : BundlingDockerImage := {|
  run := fun o fs =>
    match o.(run_volumes) with
    | _ :: out :: _ => (outcome, <[hostPath out := Dir 511 written]> fs)
    | _ => (outcome, fs)
    end;
|}.

Definition bundling_with (img : BundlingDockerImage) : BundlingOptions := {|
  image := img;
  command := Some ["build"];
  volumes := None;
  environment := None;
  workingDirectory := None;
  user := None;
  local := None;
|}.

Definition world_of (l : list (string * Node)) : World :=
  {| files := list_to_map l; trace := [] |}.

End Sample.

(** * Properties *)

(** ** The memo *)

Lemma obtain_present {S} cacheKey (calcFn : St S StagedAsset)
    (cache : gmap string StagedAsset) (s : S) v :
  cache !! cacheKey = Some v →
  obtain cacheKey calcFn (cache, s) = (Ok v, (cache, s)).
Proof. intros Hv. unfold obtain. now rewrite Hv. Qed.

Lemma obtain_absent {S} cacheKey (calcFn : St S StagedAsset)
    (cache : gmap string StagedAsset) (s : S) :
  cache !! cacheKey = None →
  obtain cacheKey calcFn (cache, s) =
  match calcFn s with
  | (Ok noo, s') => (Ok noo, (<[cacheKey := noo]> cache, s'))
  | (Throw e, s') => (Throw e, (cache, s'))
  end.
Proof. intros Hv. unfold obtain. now rewrite Hv. Qed.

(** C1. [obtain] on the memo of staged assets.  When the key is present
    the stored value is returned and [calcFn] is not invoked: the world and
    the count of invocations are as before.  When the key is absent
    [calcFn] is invoked exactly once; its result is stored under the key
    and returned; if it throws, the error is passed on and the map is left
    as it was, the key still absent, so that a later [obtain] for the same
    key invokes its [calcFn] again. *)
Theorem obtain_memoizes {W} (cacheKey : string) (calcFn : St W StagedAsset)
    (cache : gmap string StagedAsset) (w : W) (n : nat) :
  (∀ v, cache !! cacheKey = Some v →
        obtain cacheKey (counted calcFn) (cache, (w, n))
        = (Ok v, (cache, (w, n))))
  ∧ (cache !! cacheKey = None →
     match calcFn w with
     | (Ok noo, w') =>
         obtain cacheKey (counted calcFn) (cache, (w, n))
         = (Ok noo, (<[cacheKey := noo]> cache, (w', S n)))
         ∧ <[cacheKey := noo]> cache !! cacheKey = Some noo
     | (Throw e, w') =>
         obtain cacheKey (counted calcFn) (cache, (w, n))
         = (Throw e, (cache, (w', S n)))
         ∧ ∀ again : St W StagedAsset,
             (obtain cacheKey (counted again) (cache, (w', S n))).2.2.2 = S (S n)
     end).
Proof.
  split.
  - intros v Hv. now apply obtain_present.
  - intros Hnone. destruct (calcFn w) as [[noo|e] w'] eqn:Hcalc.
    + split; [| apply lookup_insert_eq].
      rewrite obtain_absent by done. unfold counted. now rewrite Hcalc.
    + split.
      * rewrite obtain_absent by done. unfold counted. now rewrite Hcalc.
      * intros again. rewrite obtain_absent by done. unfold counted.
        now destruct (again w') as [[?|?] ?].
Qed.

(** [clear] empties the memo. *)
Lemma clear_empties {W} (cache : gmap string StagedAsset) (w : W) :
  clear (cache, w) = (Ok (), (∅, w)).
Proof. reflexivity. Qed.

(** ** Hash-type resolution *)

(** C3. [determineHashType] throws exactly when a seed is given (a
    non-empty string, the test the code makes) together with an explicit
    hash type other than [CUSTOM], or when [CUSTOM] is requested
    explicitly and no seed is given.  With no explicit hash type the result
    is [CUSTOM] when a seed is given and [SOURCE] otherwise; an explicit
    hash type that passes is the result. *)
Theorem determineHashType_resolution (assetHashType : option AssetHashType)
    (customSourceFingerprint : option string) :
  (is_throw (determineHashType assetHashType customSourceFingerprint) = true ↔
     (truthy customSourceFingerprint = true
      ∧ ∃ t, assetHashType = Some t ∧ t ≠ CUSTOM)
     ∨ (assetHashType = Some CUSTOM ∧ truthy customSourceFingerprint = false))
  ∧ determineHashType None customSourceFingerprint
    = Ok (if truthy customSourceFingerprint then CUSTOM else SOURCE)
  ∧ ∀ t, determineHashType (Some t) customSourceFingerprint
         = (if truthy customSourceFingerprint
            then if bool_decide (t = CUSTOM) then Ok t
                 else Throw (HashTypeWithAssetHash (Some t))
            else if bool_decide (t = CUSTOM) then Throw AssetHashRequired
                 else Ok t).
Proof.
  unfold determineHashType.
  destruct (truthy customSourceFingerprint) eqn:Hseed; simpl.
  - split_and!; [| reflexivity | now intros []].
    destruct assetHashType as [[]|]; simpl; split; try discriminate;
      try (intros _; left; split; [done|]; eexists; split; [done|discriminate]).
    all: intros [[? (t & ? & ?)] | [? ?]]; congruence.
  - split_and!; [| reflexivity | now intros []].
    destruct assetHashType as [[]|]; simpl; split; try discriminate;
      try (intros _; right; done).
    all: intros [[? (t & ? & ?)] | [? ?]]; congruence.
Qed.

(** ** Hash computation *)

Section HashFacts.
Context `{Collaborators}.

(** C4. [calculateHash] with hash type [BUNDLE] or [OUTPUT]: without an
    output directory it throws the error of the missing [bundling], and
    the world is untouched; with one, the result is the fingerprint of
    that directory under the fingerprint options of the request. *)
Theorem calculateHash_output (this : AssetStaging) (t : AssetHashType)
    (bundling : option BundlingOptions) (outputDir : option string) (w : World) :
  t = BUNDLE ∨ t = OUTPUT →
  calculateHash this t bundling outputDir w =
  (if truthy outputDir
   then fingerprint (files w) (default EmptyString outputDir) (fingerprintOptions this)
   else Throw (HashTypeNeedsBundling t), w).
Proof.
  intros [-> | ->]; unfold calculateHash; simpl;
    destruct outputDir as [[|c d]|]; reflexivity.
Qed.

(** [calculateHash(SOURCE)] without bundling is the fingerprint of the
    source. *)
Lemma calculateHash_source (this : AssetStaging) (w : World) :
  calculateHash this SOURCE None None w =
  (fingerprint (files w) (sourcePath this) (fingerprintOptions this), w).
Proof. reflexivity. Qed.

(** [calculateHash(CUSTOM)] without bundling digests the seed, or else the
    fingerprint of the source. *)
Lemma calculateHash_custom (this : AssetStaging) (w : World) :
  calculateHash this CUSTOM None None w =
  (match customSourceFingerprint this with
   | Some seed => Ok (sha256_hex seed)
   | None =>
       match fingerprint (files w) (sourcePath this) (fingerprintOptions this) with
       | Ok f => Ok (sha256_hex f)
       | Throw e => Throw e
       end
   end, w).
Proof.
  unfold calculateHash; simpl.
  destruct (customSourceFingerprint this) as [seed|]; simpl.
  - unfold mbind, St_bind, mret, St_ret. now rewrite append_empty_r.
  - unfold mbind, St_bind, mret, St_ret, FileSystem_fingerprint. simpl.
    destruct (fingerprint _ _ _) as [f|e]; [|done]. now rewrite append_empty_r.
Qed.

(** A hash computed with the bundling configuration folded in, or from a
    seed, is a digest: it is never the empty string. *)
Lemma calculateHash_digest (this : AssetStaging) (t : AssetHashType)
    (bundling : BundlingOptions) (w w' : World) (h : string) :
  t = SOURCE ∨ t = CUSTOM →
  calculateHash this t (Some bundling) None w = (Ok h, w') →
  w' = w ∧ truthy h = true.
Proof.
  intros Ht. unfold calculateHash.
  replace (bool_decide (t = CUSTOM)
           || bool_decide (t = SOURCE) && bool_decide (is_Some (Some bundling)))
    with true by (destruct Ht as [-> | ->]; reflexivity).
  unfold mbind, St_bind, mret, St_ret, FileSystem_fingerprint.
  destruct (customSourceFingerprint this) as [seed|]; simpl.
  - intros [= <- <-]. split; [done|].
    pose proof (sha256_hex_length (seed +:+ stringify_bundling bundling)) as Hl.
    destruct (sha256_hex _); [discriminate | reflexivity].
  - destruct (fingerprint _ _ _) as [f|e]; [|discriminate].
    intros [= <- <-]. split; [done|].
    pose proof (sha256_hex_length (f +:+ stringify_bundling bundling)) as Hl.
    destruct (sha256_hex _); [discriminate | reflexivity].
Qed.

End HashFacts.

(** [BUNDLE] without an output directory, in the concrete environment. *)
Lemma calculateHash_output_witness :
  calculateHash (H := Sample.env) (Sample.staging BUNDLE None) BUNDLE None None
    (Sample.world_of [])
  = (Throw (HashTypeNeedsBundling BUNDLE), Sample.world_of []).
Proof.
  apply (calculateHash_output (H := Sample.env)). left; reflexivity.
Defined.

(** ** Placement *)

(** Unfolds the sequencing of stateful computations. *)
Ltac run :=
  unfold mbind, St_bind, mret, St_ret, fmap, St_fmap, throw, try_catch,
    emit, on_files, stderr_write; simpl.

Lemma existsSync_eq (p : string) (w : World) :
  existsSync p w = (Ok (bool_decide (is_Some (files w !! p))), w).
Proof. reflexivity. Qed.

Lemma renameSync_same (p : string) (w : World) :
  (renameSync p p w).2 = w.
Proof.
  unfold renameSync. destruct (files w !! p); [|done].
  now rewrite bool_decide_eq_true_2.
Qed.

Section PlacementFacts.
Context `{Collaborators}.

(** What [stageAsset] does when the target is there already. *)
Lemma stageAsset_present (this : AssetStaging) (src tgt : string)
    (style : Style) (w : World) :
  is_Some (files w !! tgt) →
  stageAsset this src tgt style w =
  (Ok (), if bool_decide (style = move) && negb (bool_decide (src = tgt))
          then set_files (delete src) w else w).
Proof.
  intros Htgt. unfold stageAsset. run.
  rewrite bool_decide_eq_true_2 by done.
  now destruct (bool_decide (style = move) && negb (bool_decide (src = tgt))).
Qed.

(** A move of a path onto itself never changes the world. *)
Lemma stageAsset_move_same (this : AssetStaging) (p : string) (w : World) :
  (stageAsset this p p move w).2 = w.
Proof.
  unfold stageAsset. run.
  destruct (bool_decide (is_Some (files w !! p))); simpl.
  - now rewrite bool_decide_eq_true_2.
  - apply renameSync_same.
Qed.

(** C2, amended.  When the target path exists already, [stageAsset]
    returns without error; nothing is copied (the trace is as before) and
    nothing is written (every path holds what it held or nothing).  With
    style [move] and a source other than the target the source is removed
    and every other path is untouched; with style [copy], and with style
    [move] when source and target are one path, the world is unchanged. *)
Theorem stageAsset_already_staged (this : AssetStaging) (src tgt : string)
    (style : Style) (w : World) :
  is_Some (files w !! tgt) →
  ∃ w', stageAsset this src tgt style w = (Ok (), w')
    ∧ trace w' = trace w
    ∧ (∀ p, files w' !! p = files w !! p ∨ files w' !! p = None)
    ∧ (style = move → src ≠ tgt →
       files w' !! src = None ∧ ∀ p, p ≠ src → files w' !! p = files w !! p)
    ∧ (style = copy → w' = w)
    ∧ (src = tgt → w' = w).
Proof.
  intros Htgt. eexists. split; [now apply stageAsset_present|].
  destruct style; simpl.
  - destruct (decide (src = tgt)) as [->|Hne].
    + rewrite bool_decide_eq_true_2 by done. simpl.
      split_and!; try done. intros p; now left.
    + rewrite bool_decide_eq_false_2 by done. simpl.
      split_and!; try done.
      * intros p. destruct (decide (src = p)) as [->|Hp].
        -- right. apply lookup_delete_eq.
        -- left. now apply lookup_delete_ne.
      * intros _ _. split; [apply lookup_delete_eq|].
        intros p Hp. now apply lookup_delete_ne.
  - split_and!; try done. intros p; now left.
Qed.

(** ** The skip paths *)

(** C6.  [stageByBundling] with [skip]: the hash is the one
    [calculateHash(SOURCE)] gives with no bundling, that is the
    fingerprint of the source itself with no bundling configuration
    folded in; the staged path is the source path; the world is not
    touched, so nothing is run and no directory is made. *)
Theorem stageByBundling_skip (this : AssetStaging) (bundling : BundlingOptions)
    (w : World) :
  stageByBundling this bundling true w =
  ((fun h => {| stagedPath := sourcePath this; assetHash := h |})
     <$> fingerprint (files w) (sourcePath this) (fingerprintOptions this), w)
  ∧ calculateHash this SOURCE None None w =
    (fingerprint (files w) (sourcePath this) (fingerprintOptions this), w).
Proof.
  split; [|reflexivity].
  unfold stageByBundling. run. unfold calculateHash, FileSystem_fingerprint. simpl.
  now destruct (fingerprint _ _ _).
Qed.

(** The hash [stageByCopying] reports, by hash type. *)
Definition copy_hash (this : AssetStaging) (fs : gmap string Node) : Result string :=
  match hashType this with
  | SOURCE => fingerprint fs (sourcePath this) (fingerprintOptions this)
  | CUSTOM =>
      match customSourceFingerprint this with
      | Some seed => Ok (sha256_hex seed)
      | None =>
          sha256_hex <$> fingerprint fs (sourcePath this) (fingerprintOptions this)
      end
  | BUNDLE | OUTPUT => Throw (HashTypeNeedsBundling (hashType this))
  end.

Lemma calculateHash_copy (this : AssetStaging) (w : World) :
  calculateHash this (hashType this) None None w = (copy_hash this (files w), w).
Proof.
  unfold copy_hash. destruct (hashType this) eqn:Ht.
  - apply calculateHash_source.
  - reflexivity.
  - reflexivity.
  - rewrite calculateHash_custom.
    destruct (customSourceFingerprint this); [done|].
    now destruct (fingerprint _ _ _).
Qed.

(** C5, amended.  [stageByCopying] with [skip], for a source that exists:
    the staged path is the source path and nothing is copied (the world is
    unchanged); the hash is the one of the resolved hash type: the
    fingerprint of the source for [SOURCE], the digest of the seed for
    [CUSTOM]; [BUNDLE] and [OUTPUT] throw, there being no output
    directory. *)
Theorem stageByCopying_skip (this : AssetStaging) (w : World) :
  is_Some (files w !! sourcePath this) →
  stageByCopying this true w =
  ((fun h => {| stagedPath := sourcePath this; assetHash := h |})
     <$> copy_hash this (files w), w).
Proof.
  intros Hsrc. unfold stageByCopying.
  unfold mbind at 1. unfold St_bind at 1. rewrite calculateHash_copy.
  destruct (copy_hash this (files w)) as [h|e]; [|reflexivity].
  unfold mbind, St_bind. rewrite stageAsset_present by done. reflexivity.
Qed.

End PlacementFacts.

(** *** The statements on concrete worlds *)

Module Placement.
Import Sample.

(** The output of an earlier bundling, staged at [/out/asset.h]. *)
Definition staged_dir : Node := Dir 511 [("index.js", File 420 "code")].

Definition bundled_again : World :=
  world_of [("/out/asset.h", staged_dir); ("/out/bundling-temp-k0", staged_dir)].

(** C2 as stated fails.  The target [/out/asset.h] exists and the style
    is [move], yet the source directory, being the target itself, is still
    there afterwards. *)
Lemma stageAsset_move_onto_itself_keeps_source :
  files bundled_again !! "/out/asset.h" = Some staged_dir
  ∧ stageAsset (H := env) (staging SOURCE None)
      "/out/asset.h" "/out/asset.h" move bundled_again
    = (Ok (), bundled_again).
Proof. split; reflexivity. Qed.

(** The target exists and the source is another path: the source goes. *)
Lemma stageAsset_already_staged_witness :
  ∃ w', stageAsset (H := env) (staging SOURCE None)
          "/out/bundling-temp-k0" "/out/asset.h" move bundled_again = (Ok (), w')
    ∧ trace w' = trace bundled_again
    ∧ (∀ p, files w' !! p = files bundled_again !! p ∨ files w' !! p = None)
    ∧ (move = move → "/out/bundling-temp-k0" ≠ "/out/asset.h" →
       files w' !! "/out/bundling-temp-k0" = None
       ∧ ∀ p, p ≠ "/out/bundling-temp-k0" → files w' !! p = files bundled_again !! p)
    ∧ (move = copy → w' = bundled_again)
    ∧ ("/out/bundling-temp-k0" = "/out/asset.h" → w' = bundled_again).
Proof.
  apply (stageAsset_already_staged (H := env)). eexists. reflexivity.
Defined.

(** A source file and the request that stages it under a seed. *)
Definition with_source : World := world_of [("/src/app", File 420 "payload")].

(** C5 as stated fails.  The explicit hash type [CUSTOM] with the seed
    [v1] resolves to [CUSTOM]; the copy path with [skip] then reports the
    digest of the seed, which is not the fingerprint [calculateHash]
    gives for [SOURCE]. *)
Lemma stageByCopying_skip_custom_hash :
  determineHashType (Some CUSTOM) (Some "v1") = Ok CUSTOM
  ∧ stageByCopying (H := env) (staging CUSTOM (Some "v1")) true with_source
    = (Ok {| stagedPath := "/src/app"; assetHash := digest "v1" |}, with_source)
  ∧ calculateHash (H := env) (staging CUSTOM (Some "v1")) SOURCE None None with_source
    = (Ok (digest "file:payload"), with_source)
  ∧ digest "v1" ≠ digest "file:payload".
Proof. split_and!; [reflexivity | reflexivity | reflexivity | discriminate]. Qed.

Lemma stageByCopying_skip_witness :
  stageByCopying (H := env) (staging CUSTOM (Some "v1")) true with_source
  = ((fun h => {| stagedPath := "/src/app"; assetHash := h |})
       <$> copy_hash (H := env) (staging CUSTOM (Some "v1")) (files with_source),
     with_source).
Proof.
  apply (stageByCopying_skip (H := env)). eexists. reflexivity.
Defined.

End Placement.

(** ** Bundling *)

Lemma is_Some_None_false {A} (o : option A) :
  o = None → bool_decide (is_Some o) = false.
Proof. intros ->. apply bool_decide_eq_false_2. now intros [? ?]. Qed.

(** [ensureDirSync] and [chmodSync] on a path that is free: an empty
    directory with mode 0o777. *)
Lemma prepare_bundleDir (d : string) (w : World) :
  files w !! d = None →
  (ensureDirSync d;; chmodSync d 511) w
  = (Ok (), set_files <[d := Dir 511 []]> w).
Proof.
  intros Hd. run. unfold ensureDirSync. rewrite Hd.
  unfold chmodSync, set_files. simpl. rewrite lookup_insert_eq. simpl.
  now rewrite insert_insert_eq.
Qed.

Section BundlingFacts.
Context `{Collaborators}.

(** [bundle] into a directory that does not exist yet, up to the end of
    the [try] block. *)
Lemma bundle_fresh (this : AssetStaging) (options : BundlingOptions)
    (bundleDir : string) (w : World) :
  files w !! bundleDir = None →
  bundle this options bundleDir w =
  (localBundling ←
     try_catch (bundle_try this options bundleDir) (bundle_catch this bundleDir);
   empty ← FileSystem_isEmpty bundleDir;
   if empty : bool then
     throw (BundleEmpty (if truthy localBundling then bundleDir
                         else BUNDLING_OUTPUT_DIR))
   else mret ()) (set_files <[bundleDir := Dir 511 []]> w).
Proof.
  intros Hd. unfold bundle.
  unfold mbind at 1. unfold St_bind at 1.
  rewrite existsSync_eq, is_Some_None_false by done.
  pose proof (prepare_bundleDir bundleDir w Hd) as Hprep.
  unfold mbind in Hprep. unfold St_bind in Hprep.
  unfold mbind at 1. unfold St_bind at 1.
  destruct (ensureDirSync bundleDir w) as [[[]|e] w0] eqn:Hens; [|discriminate].
  unfold mbind at 1. unfold St_bind at 1. now rewrite Hprep.
Qed.

(** The [try] block went through: all that is left is the test for an
    empty output. *)
Lemma bundle_ran (this : AssetStaging) (options : BundlingOptions)
    (bundleDir : string) (w w1 : World) (localBundling : option bool) :
  files w !! bundleDir = None →
  bundle_try this options bundleDir (set_files <[bundleDir := Dir 511 []]> w)
  = (Ok localBundling, w1) →
  bundle this options bundleDir w =
  (match isEmpty (files w1) bundleDir with
   | Ok true =>
       Throw (BundleEmpty (if truthy localBundling then bundleDir
                           else BUNDLING_OUTPUT_DIR))
   | Ok false => Ok ()
   | Throw e => Throw e
   end, w1).
Proof.
  intros Hd Htry. rewrite bundle_fresh by done.
  unfold mbind at 1. unfold St_bind at 1. unfold try_catch. rewrite Htry.
  unfold mbind, St_bind, FileSystem_isEmpty, throw, mret, St_ret.
  now destruct (isEmpty (files w1) bundleDir) as [[|]|e].
Qed.

(** The [try] block threw: the [catch] block decides. *)
Lemma bundle_threw (this : AssetStaging) (options : BundlingOptions)
    (bundleDir : string) (w w1 w2 : World) (err e : Exn) :
  files w !! bundleDir = None →
  bundle_try this options bundleDir (set_files <[bundleDir := Dir 511 []]> w)
  = (Throw err, w1) →
  bundle_catch this bundleDir err w1 = (Throw e, w2) →
  bundle this options bundleDir w = (Throw e, w2).
Proof.
  intros Hd Htry Hcatch. rewrite bundle_fresh by done.
  unfold mbind at 1. unfold St_bind at 1. unfold try_catch.
  now rewrite Htry, Hcatch.
Qed.

(** [bundle] into a directory that exists: nothing is done. *)
Lemma bundle_present (this : AssetStaging) (options : BundlingOptions)
    (bundleDir : string) (w : World) :
  is_Some (files w !! bundleDir) →
  bundle this options bundleDir w = (Ok (), w).
Proof.
  intros Hd. unfold bundle. unfold mbind at 1. unfold St_bind at 1.
  now rewrite existsSync_eq, bool_decide_eq_true_2.
Qed.

(** The [catch] block, when the bundle directory is still there: a stale
    [-error] directory is removed, the bundle directory takes its place,
    and the error names the asset and that place. *)
Lemma bundle_catch_renames (this : AssetStaging) (bundleDir : string)
    (err : Exn) (w1 : World) (n : Node) :
  files w1 !! bundleDir = Some n →
  bundle_catch this bundleDir err w1 =
  (Throw (BundleFailed (node_path this) (bundleDir +:+ "-error") err),
   set_files (fun fs => <[bundleDir +:+ "-error" := n]>
                          (delete bundleDir (delete (bundleDir +:+ "-error") fs))) w1).
Proof.
  intros Hn.
  assert (bundleDir +:+ "-error" ≠ bundleDir) as Hne
    by now apply append_suffix_ne.
  unfold bundle_catch. run.
  destruct (files w1 !! (bundleDir +:+ "-error")) as [stale|] eqn:Hstale.
  - rewrite bool_decide_eq_true_2 by done. simpl.
    unfold removeSync, renameSync, set_files. simpl.
    rewrite lookup_delete_ne, Hn by done.
    rewrite bool_decide_eq_false_2 by done.
    rewrite lookup_delete_eq. reflexivity.
  - rewrite is_Some_None_false by done. simpl.
    unfold renameSync, set_files. rewrite Hn.
    rewrite bool_decide_eq_false_2 by done. rewrite Hstale.
    now rewrite (delete_id _ _ Hstale).
Qed.

End BundlingFacts.

Section BundlingClaims.
Context `{Collaborators}.

(** A failed [try] block in a fresh bundle directory that is still there
    afterwards. *)
Lemma bundle_failure (this : AssetStaging) (options : BundlingOptions)
    (bundleDir : string) (w w1 : World) (err : Exn) (n : Node) :
  files w !! bundleDir = None →
  bundle_try this options bundleDir (set_files <[bundleDir := Dir 511 []]> w)
  = (Throw err, w1) →
  files w1 !! bundleDir = Some n →
  bundle this options bundleDir w =
  (Throw (BundleFailed (node_path this) (bundleDir +:+ "-error") err),
   set_files (fun fs => <[bundleDir +:+ "-error" := n]>
                          (delete bundleDir (delete (bundleDir +:+ "-error") fs))) w1).
Proof.
  intros Hd Htry Hn. eapply bundle_threw; [done | done |].
  now apply bundle_catch_renames.
Qed.

Lemma bundle_failure_files (bundleDir : string) (w1 : World) (n : Node) :
  let bundleErrorDir := bundleDir +:+ "-error" in
  let w2 := set_files (fun fs => <[bundleErrorDir := n]>
                                   (delete bundleDir (delete bundleErrorDir fs))) w1 in
  files w2 !! bundleErrorDir = Some n
  ∧ files w2 !! bundleDir = None
  ∧ (∀ p, p ≠ bundleDir → p ≠ bundleErrorDir → files w2 !! p = files w1 !! p)
  ∧ trace w2 = trace w1.
Proof.
  intros bundleErrorDir w2.
  assert (bundleErrorDir ≠ bundleDir) as Hne by now apply append_suffix_ne.
  subst w2; simpl. split_and!; [| | | done].
  - apply lookup_insert_eq.
  - rewrite lookup_insert_ne by done. apply lookup_delete_eq.
  - intros p Hp1 Hp2.
    now rewrite lookup_insert_ne, !lookup_delete_ne by done.
Qed.

(** C8.  Bundling into a fresh directory whose execution (the [try] block)
    throws [err], the directory with its partial output [n] still being
    there: [bundle] throws the error that names the asset [node.path] and
    the path [bundleDir-error]; that path now holds the partial output,
    whatever it held before, the world being the one reached by removing
    the stale [-error] sibling first and renaming the bundle directory
    onto it; the bundle directory is gone and no other path is touched. *)
Theorem bundle_failure_keeps_output (this : AssetStaging)
    (options : BundlingOptions) (bundleDir : string) (w w1 : World)
    (err : Exn) (n : Node) :
  files w !! bundleDir = None →
  bundle_try this options bundleDir (set_files <[bundleDir := Dir 511 []]> w)
  = (Throw err, w1) →
  files w1 !! bundleDir = Some n →
  let bundleErrorDir := bundleDir +:+ "-error" in
  ∃ w2,
    bundle this options bundleDir w
    = (Throw (BundleFailed (node_path this) bundleErrorDir err), w2)
    ∧ renameSync bundleDir bundleErrorDir (set_files (delete bundleErrorDir) w1)
      = (Ok (), w2)
    ∧ files w2 !! bundleErrorDir = Some n
    ∧ files w2 !! bundleDir = None
    ∧ (∀ p, p ≠ bundleDir → p ≠ bundleErrorDir → files w2 !! p = files w1 !! p)
    ∧ ∀ hashTypeValue, ∃ cause,
        message hashTypeValue (BundleFailed (node_path this) bundleErrorDir err)
        = "Failed to bundle asset " +:+ node_path this +:+
          ", bundle output is located at " +:+ bundleErrorDir +:+ ": " +:+ cause.
Proof.
  intros Hd Htry Hn bundleErrorDir.
  assert (bundleErrorDir ≠ bundleDir) as Hne by now apply append_suffix_ne.
  eexists. split; [exact (bundle_failure this options bundleDir w w1 err n Hd Htry Hn)|].
  destruct (bundle_failure_files bundleDir w1 n) as (He & Hb & Hp & _).
  split_and!; try done.
  - unfold renameSync, set_files; simpl.
    rewrite lookup_delete_ne, Hn by done.
    rewrite bool_decide_eq_false_2 by done.
    now rewrite lookup_delete_eq.
  - intros hv. eexists. reflexivity.
Qed.

(** C10.  With hash type [SOURCE] or [CUSTOM] the hash [h] is computed
    before bundling, and the bundle directory [determineBundleDir] names
    is the staged path [asset.h] itself.  Placing a path onto itself with
    style [move] leaves every world as it is.  So once [bundle] has
    returned, [stageByBundling] ends in the very world [bundle] left, the
    bundled output still in place, and reports that path and [h]. *)
Theorem bundle_dir_is_staged_path (this : AssetStaging)
    (bundling : BundlingOptions) (w : World) (h : string) :
  hashType this = SOURCE ∨ hashType this = CUSTOM →
  (calculateHash this (hashType this) (Some bundling) None w).1 = Ok h →
  let staged := path_resolve (outdir this) (renderAssetFilename h EmptyString) in
  determineBundleDir this (outdir this) (Some h) = staged
  ∧ (∀ w1, (stageAsset this staged staged move w1).2 = w1)
  ∧ (∀ w1, bundle this bundling staged w = (Ok (), w1) →
       (stageByBundling this bundling false w).2 = w1
       ∧ (is_Some (files w1 !! staged) →
          stageByBundling this bundling false w
          = (Ok {| stagedPath := staged; assetHash := h |}, w1))).
Proof.
  intros Ht Hh staged.
  destruct (calculateHash this (hashType this) (Some bundling) None w)
    as [r w'] eqn:Hcalc. simpl in Hh. subst r.
  destruct (calculateHash_digest _ _ _ _ _ _ Ht Hcalc) as [-> Htruthy].
  assert (determineBundleDir this (outdir this) (Some h) = staged) as Hdir.
  { unfold determineBundleDir. now rewrite Htruthy. }
  split_and!; [done | intros w1; apply stageAsset_move_same |].
  intros w1 Hbundle.
  assert (stageByBundling this bundling false w =
          (stageAsset this staged staged move;;
           mret {| stagedPath := staged; assetHash := h |}) w1) as Hrun.
  { unfold stageByBundling.
    replace (bool_decide (hashType this = SOURCE)
             || bool_decide (hashType this = CUSTOM)) with true
      by (destruct Ht as [-> | ->]; reflexivity).
    unfold mbind at 1. unfold St_bind at 1.
    unfold mbind at 1. unfold St_bind at 1. rewrite Hcalc.
    unfold mret at 1. unfold St_ret at 1. rewrite Hdir.
    unfold mbind at 1. unfold St_bind at 1. rewrite Hbundle.
    reflexivity. }
  rewrite Hrun. split.
  - pose proof (stageAsset_move_same this staged w1) as Hsame.
    unfold mbind, St_bind, mret, St_ret.
    now destruct (stageAsset this staged staged move w1) as [[[]|e] w2].
  - intros Hthere. unfold mbind, St_bind.
    rewrite stageAsset_present by done.
    replace (bool_decide (staged = staged)) with true
      by (symmetry; now apply bool_decide_eq_true_2).
    reflexivity.
Qed.

End BundlingClaims.

(** *** Bundling on concrete worlds *)

Module Bundling.
Import Sample.

Definition temp_dir : string := "/out/bundling-temp-k0".

Definition partial_output : list (string * Node) := [("partial.txt", File 420 "half")].

(** A container that writes part of its output and then fails. *)
Definition failing : BundlingOptions :=
  bundling_with (image_writing partial_output (Throw (Foreign "exit status 1"))).

(** A container that succeeds and writes nothing. *)
Definition silent : BundlingOptions :=
  bundling_with (image_writing [] (Ok ())).

(** A container that writes one file. *)
Definition working : BundlingOptions :=
  bundling_with (image_writing [("index.js", File 420 "code")] (Ok ())).

(** The error directory of an earlier failed run is still around. *)
Definition after_failed_run : World :=
  world_of [("/out/bundling-temp-k0-error", Dir 511 [("old.log", File 420 "stale")])].

Lemma determineBundleDir_temp :
  determineBundleDir (H := env) (staging OUTPUT None) "/out" None = temp_dir.
Proof. reflexivity. Qed.

(** A second failing run: the stale error directory gives way to the new
    partial output. *)
Lemma bundle_failure_keeps_output_witness :
  ∃ w2,
    bundle (H := env) (staging OUTPUT None) failing temp_dir after_failed_run
    = (Throw (BundleFailed "Stack/Asset" "/out/bundling-temp-k0-error"
                (Foreign "exit status 1")), w2)
    ∧ files w2 !! "/out/bundling-temp-k0-error" = Some (Dir 511 partial_output)
    ∧ files w2 !! temp_dir = None.
Proof.
  destruct (bundle_failure_keeps_output (H := env) (staging OUTPUT None) failing
              temp_dir after_failed_run
              (bundle_try (H := env) (staging OUTPUT None) failing temp_dir
                 (set_files <[temp_dir := Dir 511 []]> after_failed_run)).2
              (Foreign "exit status 1") (Dir 511 partial_output)
              eq_refl eq_refl eq_refl)
    as (w2 & Hthrow & _ & Herr & Hgone & _).
  exists w2. split_and!; assumption.
Defined.

(** The container succeeds and writes nothing: [bundle] throws the error
    of the missing output, and afterwards there is no [-error] directory;
    the empty bundle directory is where it was made. *)
Lemma bundle_empty_leaves_no_error_dir :
  let r := bundle (H := env) (staging OUTPUT None) silent temp_dir (world_of []) in
  r.1 = Throw (BundleEmpty "/asset-output")
  ∧ files r.2 !! (temp_dir +:+ "-error") = None
  ∧ files r.2 !! temp_dir = Some (Dir 511 []).
Proof. split_and!; reflexivity. Qed.

(** The hash of the source [payload] with the bundling configuration. *)
Definition source_hash : string := digest (digest "file:payload" +:+ "{}").

Definition staged_path : string := "/out/asset." +:+ source_hash.

(** Bundling under [SOURCE]: the container writes straight into the
    staged path, and its output is there at the end. *)
Lemma bundle_dir_is_staged_path_witness :
  ∃ w1,
    stageByBundling (H := env) (staging SOURCE None) working false
      Placement.with_source
    = (Ok {| stagedPath := staged_path; assetHash := source_hash |}, w1)
    ∧ files w1 !! staged_path = Some (Dir 511 [("index.js", File 420 "code")]).
Proof.
  exists (bundle (H := env) (staging SOURCE None) working staged_path
            Placement.with_source).2.
  split; [|reflexivity].
  apply (proj2 (proj2 (bundle_dir_is_staged_path (H := env) (staging SOURCE None)
                         working Placement.with_source source_hash
                         (or_introl eq_refl) eq_refl))).
  - reflexivity.
  - eexists; reflexivity.
Defined.

(** The first request for an asset whose container succeeds and writes
    nothing. *)
Definition first_request : Result StagedAsset * World :=
  stageByBundling (H := env) (staging SOURCE None) silent false Placement.with_source.

(** C9.  The code at the failing input: a container that succeeds and
    writes nothing, for an asset hashed by [SOURCE].  The first request
    throws the error of the missing output, which is what the claim
    asks; but it leaves no [-error] directory behind: the empty bundle
    directory stays at the staged path.  The same request issued again
    then returns at once with that empty directory as the staged asset,
    and runs nothing: the trace is as the first request left it. *)
Theorem empty_output_is_staged_on_retry :
  first_request.1 = Throw (BundleEmpty "/asset-output")
  ∧ files first_request.2 !! (staged_path +:+ "-error") = None
  ∧ files first_request.2 !! staged_path = Some (Dir 511 [])
  ∧ stageByBundling (H := env) (staging SOURCE None) silent false first_request.2
    = (Ok {| stagedPath := staged_path; assetHash := source_hash |},
       first_request.2).
Proof. split_and!; vm_compute; reflexivity. Qed.

End Bundling.

(** ** Cache keys *)

(** Induction on a value, through the elements of arrays and the values
    of properties. *)
Lemma JsValue_nested_ind (P : JsValue → Prop) :
  P JUndefined → P JNull → (∀ b, P (JBool b)) → (∀ n, P (JNum n)) →
  (∀ s, P (JStr s)) →
  (∀ elems, Forall P elems → P (JArr elems)) →
  (∀ props, Forall (fun kv : string * JsValue => P kv.2) props → P (JObj props)) →
  ∀ v, P v.
Proof.
  intros Hu Hn Hb Hz Hs Ha Ho.
  fix IH 1.
  intros [| |b|n|s|elems|props];
    [exact Hu | exact Hn | apply Hb | apply Hz | apply Hs | |].
  - apply Ha. induction elems as [|x l IHl]; constructor; [apply IH | exact IHl].
  - apply Ho. induction props as [|[k x] l IHl]; constructor; [apply IH | exact IHl].
Qed.

(** The values of the properties, sorted one by one. *)
Fixpoint sortProps (ps : list (string * JsValue)) : Result (list (string * JsValue)) :=
  match ps with
  | [] => Ok []
  | (k, v) :: ps' =>
      match sortObject v with
      | Ok v' =>
          match sortProps ps' with
          | Ok r => Ok ((k, v') :: r)
          | Throw e => Throw e
          end
      | Throw e => Throw e
      end
  end.

Lemma sortObject_object (props : list (string * JsValue)) :
  sortObject (JObj props) =
  match sortProps props with
  | Ok sorted => Ok (JObj (rebuild props.*1 sorted))
  | Throw e => Throw e
  end.
Proof.
  simpl.
  match goal with
  | |- match ?f props with _ => _ end = _ =>
      assert (∀ ps, f ps = sortProps ps) as Heq
  end.
  { induction ps as [|[k v] ps IH]; [reflexivity|]. simpl. now rewrite IH. }
  now rewrite Heq.
Qed.

(** The only error of [sortObject] is the one of [Object.keys(null)]. *)
Lemma sortObject_throws (v : JsValue) (e : Exn) :
  sortObject v = Throw e → e = null_to_object.
Proof.
  revert e. induction v as [| | | | | |props IH] using JsValue_nested_ind;
    intros e; try discriminate.
  - now intros [= <-].
  - rewrite sortObject_object.
    assert (∀ e', sortProps props = Throw e' → e' = null_to_object) as Hps.
    { induction IH as [|[k v] ps Hv _ IHps]; intros e'; [discriminate|]. simpl.
      destruct (sortObject v) as [v'|e1] eqn:Hv'.
      - destruct (sortProps ps) as [r|e2]; [discriminate|].
        intros [= <-]. now apply IHps.
      - intros [= <-]. now apply Hv. }
    destruct (sortProps props) as [r|e1]; [discriminate|].
    intros [= <-]. now apply Hps.
Qed.

(** The value [sortObject] returns, [undefined] when it throws. *)
Definition sorted_value (v : JsValue) : JsValue :=
  match sortObject v with Ok v' => v' | Throw _ => JUndefined end.

Definition sortable (kv : string * JsValue) : bool := negb (is_throw (sortObject kv.2)).

Lemma sortProps_eq (ps : list (string * JsValue)) :
  sortProps ps =
  if forallb sortable ps
  then Ok (map (fun kv : string * JsValue => (kv.1, sorted_value kv.2)) ps)
  else Throw null_to_object.
Proof.
  induction ps as [|[k v] ps IH]; [reflexivity|].
  simpl. unfold sortable at 1, sorted_value at 1. simpl.
  destruct (sortObject v) as [v'|e] eqn:Hv; simpl.
  - rewrite IH. now destruct (forallb sortable ps).
  - now rewrite (sortObject_throws _ _ Hv).
Qed.

Lemma obj_get_unique (ps : list (string * JsValue)) (k : string) (v : JsValue) :
  NoDup ps.*1 → (k, v) ∈ ps → obj_get k ps = v.
Proof.
  induction ps as [|[k' v'] ps IH]; intros Hnd Hin; [by apply elem_of_nil in Hin|].
  simpl in *. apply NoDup_cons in Hnd as [Hk' Hnd].
  apply elem_of_cons in Hin as [[= -> ->]|Hin].
  - now rewrite bool_decide_eq_true_2.
  - rewrite bool_decide_eq_false_2; [now apply IH|].
    intros ->. apply Hk'. apply list_elem_of_fmap. now exists (k, v).
Qed.

Lemma foldl_ext_elem {A B} (f g : A → B → A) (a : A) (l : list B) :
  (∀ x acc, x ∈ l → f acc x = g acc x) → foldl f a l = foldl g a l.
Proof.
  revert a; induction l as [|x l IH]; intros a Hfg; [reflexivity|].
  simpl. rewrite Hfg by (apply elem_of_cons; now left).
  apply IH. intros y acc Hy. apply Hfg. apply elem_of_cons. now right.
Qed.

Lemma forallb_Permutation {A} (f : A → bool) (l1 l2 : list A) :
  l1 ≡ₚ l2 → forallb f l1 = forallb f l2.
Proof.
  induction 1 as [|x l l' _ IH|x y l|l l' l'' _ IH1 _ IH2]; simpl.
  - reflexivity.
  - now rewrite IH.
  - now destruct (f x), (f y).
  - now rewrite IH1.
Qed.

(** Sorting depends on the keys only, not on the order they come in. *)
Lemma merge_sort_Permutation_eq (l1 l2 : list string) :
  l1 ≡ₚ l2 → merge_sort String.le l1 = merge_sort String.le l2.
Proof.
  intros Hp. apply (Sorted_unique String.le).
  - apply Sorted_merge_sort; apply _.
  - apply Sorted_merge_sort; apply _.
  - now rewrite !merge_sort_Permutation.
Qed.

Lemma rebuild_ext (keys1 keys2 : list string) (s1 s2 : list (string * JsValue)) :
  keys1 ≡ₚ keys2 →
  (∀ k, k ∈ keys1 → obj_get k s1 = obj_get k s2) →
  rebuild keys1 s1 = rebuild keys2 s2.
Proof.
  intros Hp Hget. unfold rebuild.
  rewrite <- (merge_sort_Permutation_eq _ _ Hp).
  apply foldl_ext_elem. intros k acc Hk.
  rewrite Hget; [reflexivity|].
  now rewrite merge_sort_Permutation in Hk.
Qed.

(** Two lists of properties that agree key by key on what [sortObject]
    gives for the values. *)
Definition same_sorted (e1 e2 : string * JsValue) : Prop :=
  e1.1 = e2.1 ∧ sortObject e1.2 = sortObject e2.2.

Lemma same_sorted_keys (p p2 : list (string * JsValue)) :
  Forall2 same_sorted p p2 → p.*1 = p2.*1.
Proof.
  induction 1 as [|e1 e2 l1 l2 [Hk _] _ IH]; [reflexivity|].
  rewrite !fmap_cons. congruence.
Qed.

Lemma same_sorted_sortable (p p2 : list (string * JsValue)) :
  Forall2 same_sorted p p2 → forallb sortable p = forallb sortable p2.
Proof.
  induction 1 as [|e1 e2 l1 l2 [_ Hv] _ IH]; simpl; [reflexivity|].
  unfold sortable at 1 3. now rewrite Hv, IH.
Qed.

Lemma same_sorted_elem (p p2 : list (string * JsValue)) (k : string) (v : JsValue) :
  Forall2 same_sorted p p2 → (k, v) ∈ p →
  ∃ v2, (k, v2) ∈ p2 ∧ sorted_value v = sorted_value v2.
Proof.
  induction 1 as [|[k1 v1] [k2 v2] l1 l2 [Hk Hv] _ IH]; intros Hin;
    [by apply elem_of_nil in Hin|].
  apply elem_of_cons in Hin as [[= -> ->]|Hin].
  - simpl in *. subst k2. exists v2. split; [apply elem_of_cons; now left|].
    unfold sorted_value. now rewrite Hv.
  - destruct (IH Hin) as (v3 & Hin3 & Heq). exists v3.
    split; [apply elem_of_cons; now right | done].
Qed.

Definition sorted_prop (kv : string * JsValue) : string * JsValue :=
  (kv.1, sorted_value kv.2).

Lemma sorted_prop_keys (ps : list (string * JsValue)) : (sorted_prop <$> ps).*1 = ps.*1.
Proof.
  induction ps as [|[k v] ps IH]; [reflexivity|].
  rewrite !fmap_cons. simpl. congruence.
Qed.

Lemma sortObject_same_sorted (p1 p p2 : list (string * JsValue)) :
  NoDup p1.*1 → p1 ≡ₚ p → Forall2 same_sorted p p2 →
  sortObject (JObj p1) = sortObject (JObj p2).
Proof.
  intros Hnd Hperm Hsame.
  assert (p1.*1 ≡ₚ p2.*1) as Hkeys.
  { rewrite <- (same_sorted_keys _ _ Hsame). now apply fmap_Permutation. }
  rewrite !sortObject_object, !sortProps_eq.
  rewrite (forallb_Permutation _ _ _ Hperm), (same_sorted_sortable _ _ Hsame).
  destruct (forallb sortable p2); [|reflexivity].
  do 2 f_equal. apply rebuild_ext; [done|].
  intros k Hk. apply list_elem_of_fmap in Hk as ([k' v] & -> & Hin). simpl.
  assert ((k', v) ∈ p) as Hinp by now rewrite <- Hperm.
  destruct (same_sorted_elem _ _ _ _ Hsame Hinp) as (v2 & Hin2 & Heq).
  rewrite (obj_get_unique _ k' (sorted_value v)).
  - symmetry. rewrite Heq. apply obj_get_unique.
    + change (NoDup (sorted_prop <$> p2).*1). rewrite sorted_prop_keys.
      now rewrite <- Hkeys.
    + apply (list_elem_of_fmap_2 sorted_prop _ (k', v2)). exact Hin2.
  - change (NoDup (sorted_prop <$> p1).*1). now rewrite sorted_prop_keys.
  - apply (list_elem_of_fmap_2 sorted_prop _ (k', v)). exact Hin.
Qed.

Lemma unique_keys_object (props : list (string * JsValue)) :
  unique_keys (JObj props) = true →
  NoDup props.*1 ∧ Forall (fun kv : string * JsValue => unique_keys kv.2 = true) props.
Proof.
  simpl. intros [Hnd Hall]%andb_prop. split.
  - now apply bool_decide_eq_true in Hnd.
  - apply Forall_forall. intros kv Hin.
    rewrite forallb_forall in Hall. apply Hall. now apply list_elem_of_In.
Qed.

(** [sortObject] does not see the order of keys outside arrays. *)
Lemma sortObject_key_order (a b : JsValue) :
  key_order_equiv false a b → unique_keys a = true → sortObject a = sortObject b.
Proof.
  revert b. induction a as [| |c|n|s|elems _|props IH] using JsValue_nested_ind;
    intros b Hab Huk; inversion Hab; subst; try reflexivity; try discriminate.
  apply unique_keys_object in Huk as [Hnd Huk].
  match goal with
  | Hp : props ≡ₚ ?p, Hf : Forall2 _ ?p ?p2 |- _ =>
      apply (sortObject_same_sorted props p p2 Hnd Hp);
      assert (Forall (fun kv : string * JsValue =>
                (∀ b, key_order_equiv false kv.2 b → unique_keys kv.2 = true →
                      sortObject kv.2 = sortObject b)
                ∧ unique_keys kv.2 = true) p) as Hall
        by (rewrite <- Hp; apply Forall_and; split; assumption);
      clear -Hf Hall; induction Hf as [|e1 e2 l1 l2 [Hk He] _ IHf];
        [constructor|]
  end.
  apply Forall_cons in Hall as [[Hsort Huk] Hall].
  constructor; [split; [done | now apply Hsort] | now apply IHf].
Qed.

Section CacheKeyFacts.
Context `{Collaborators}.

(** C7, amended.  Two configurations with no repeated key that are equal
    up to the order of the keys of their mappings, at any depth outside
    sequences, have the same canonical form: [sortObject] gives the same
    result for both, so the serialised bytes and the cache keys are
    equal.  A sequence passes through as it is, the order of its elements
    and the key order of the mappings in it included. *)
Theorem cache_key_ignores_key_order (a b : JsValue) :
  unique_keys a = true →
  key_order_equiv false a b →
  sortObject a = sortObject b
  ∧ canonical_bytes a = canonical_bytes b
  ∧ calculateCacheKey a = calculateCacheKey b
  ∧ ∀ elems, sortObject (JArr elems) = Ok (JArr elems).
Proof.
  intros Huk Hab. pose proof (sortObject_key_order a b Hab Huk) as Heq.
  unfold canonical_bytes, calculateCacheKey. rewrite Heq. done.
Qed.

End CacheKeyFacts.

Module Keys.
Import Sample.

Definition volume (first second : string * JsValue) : JsValue := JObj [first; second].

Definition host : string * JsValue := ("hostPath", JStr "/src").
Definition container : string * JsValue := ("containerPath", JStr "/asset-input").

(** The same bundling volume, its two keys written in either order,
    inside the sequence of volumes. *)
Definition volumes_1 : JsValue := JObj [("volumes", JArr [volume host container])].
Definition volumes_2 : JsValue := JObj [("volumes", JArr [volume container host])].

(** C7 as stated fails.  The two configurations are equal up to the order
    of the keys of a mapping inside a sequence, and their serialised bytes
    differ. *)
Lemma cache_key_sees_key_order_in_arrays :
  key_order_equiv true volumes_1 volumes_2
  ∧ unique_keys volumes_1 = true
  ∧ unique_keys volumes_2 = true
  ∧ canonical_bytes volumes_1 ≠ canonical_bytes volumes_2.
Proof.
  split_and!; [| reflexivity | reflexivity | vm_compute; discriminate].
  apply (koe_obj true _ [("volumes", JArr [volume host container])]); [done|].
  constructor; [|constructor]. split; [done|]. simpl.
  apply koe_arr; [done|]. constructor; [|constructor].
  apply (koe_obj true _ [container; host]); [apply perm_swap|].
  repeat constructor.
Qed.

(** The same keys in either order, at two depths outside sequences. *)
Definition props_1 : JsValue :=
  JObj [("sourcePath", JStr "/src");
        ("bundling", JObj [("user", JStr "1000"); ("command", JArr [JStr "build"])])].
Definition props_2 : JsValue :=
  JObj [("bundling", JObj [("command", JArr [JStr "build"]); ("user", JStr "1000")]);
        ("sourcePath", JStr "/src")].

Lemma props_key_order : key_order_equiv false props_1 props_2.
Proof.
  apply (koe_obj false _
           [("bundling", JObj [("user", JStr "1000"); ("command", JArr [JStr "build"])]);
            ("sourcePath", JStr "/src")]); [apply perm_swap|].
  constructor; [|repeat constructor]. split; [done|]. simpl.
  apply (koe_obj false _ [("command", JArr [JStr "build"]); ("user", JStr "1000")]);
    [apply perm_swap|].
  repeat constructor.
Qed.

Lemma cache_key_ignores_key_order_witness :
  calculateCacheKey (H := env) props_1 = calculateCacheKey (H := env) props_2.
Proof.
  apply (cache_key_ignores_key_order (H := env) props_1 props_2 eq_refl props_key_order).
Defined.

End Keys.

(** * Further properties of the code *)

(** ** The memo, over several calls *)

Lemma obtain_hit {S} (cacheKey : string) (calcFn again : St S StagedAsset)
    (s s1 : gmap string StagedAsset * S) (v : StagedAsset) :
  obtain cacheKey calcFn s = (Ok v, s1) →
  obtain cacheKey again s1 = (Ok v, s1).
Proof.
  destruct s as [cache w], s1 as [cache1 w1]. intros Hfirst.
  destruct (cache !! cacheKey) as [old|] eqn:Hold.
  - rewrite (obtain_present _ _ _ _ old Hold) in Hfirst.
    injection Hfirst as <- <- <-. now apply obtain_present.
  - rewrite obtain_absent in Hfirst by done.
    destruct (calcFn w) as [[noo|e] w']; [|discriminate].
    injection Hfirst as <- <- <-. apply obtain_present, lookup_insert_eq.
Qed.

Lemma obtain_cache {S} (cacheKey : string) (calcFn : St S StagedAsset)
    (cache cache1 : gmap string StagedAsset) (w w1 : S) (r : Result StagedAsset) :
  obtain cacheKey calcFn (cache, w) = (r, (cache1, w1)) →
  match r with
  | Ok v => cache1 = cache ∧ cache !! cacheKey = Some v
            ∨ cache1 = <[cacheKey := v]> cache ∧ cache !! cacheKey = None
  | Throw _ => cache1 = cache
  end.
Proof.
  intros Hob. destruct (cache !! cacheKey) as [old|] eqn:Hold.
  - rewrite (obtain_present _ _ _ _ old Hold) in Hob.
    injection Hob as <- <- <-. now left.
  - rewrite obtain_absent in Hob by done.
    destruct (calcFn w) as [[noo|e] w']; injection Hob as <- <- <-; [now right | done].
Qed.

(** A value [obtain] has returned is what every later [obtain] for the
    same key returns, whatever its [calcFn], which is not invoked: the
    state, the world of [calcFn] included, stays as it is. *)
Theorem obtain_then_obtain {W} (cacheKey : string) (calcFn again : St W StagedAsset)
    (cache : gmap string StagedAsset) (w : W) (v : StagedAsset)
    (s1 : gmap string StagedAsset * W) :
  obtain cacheKey calcFn (cache, w) = (Ok v, s1) →
  obtain cacheKey again s1 = (Ok v, s1).
Proof. apply obtain_hit. Qed.

(** [obtain] never drops or replaces an entry of the memo, and touches no
    key other than its own. *)
Theorem obtain_keeps_entries {W} (cacheKey : string) (calcFn : St W StagedAsset)
    (cache cache1 : gmap string StagedAsset) (w w1 : W) (r : Result StagedAsset) :
  obtain cacheKey calcFn (cache, w) = (r, (cache1, w1)) →
  (∀ k v, cache !! k = Some v → cache1 !! k = Some v)
  ∧ (∀ k, k ≠ cacheKey → cache1 !! k = cache !! k).
Proof.
  intros Hob. apply obtain_cache in Hob.
  destruct r as [v|e].
  - destruct Hob as [[-> _] | [-> Hnone]]; [done|]. split.
    + intros k x Hk. rewrite lookup_insert_ne; [done|]. congruence.
    + intros k Hk. now rewrite lookup_insert_ne.
  - now subst cache1.
Qed.

(** After [clear] the memo has forgotten every key: the next [obtain]
    invokes its [calcFn], and the memo then holds that one result. *)
Theorem clear_then_obtain {W} (cacheKey : string) (calcFn : St W StagedAsset)
    (cache : gmap string StagedAsset) (w : W) :
  (clear;; obtain cacheKey calcFn) (cache, w) =
  match calcFn w with
  | (Ok noo, w') => (Ok noo, ({[cacheKey := noo]}, w'))
  | (Throw e, w') => (Throw e, (∅, w'))
  end.
Proof.
  unfold mbind, St_bind. rewrite clear_empties.
  rewrite obtain_absent by apply lookup_empty.
  now destruct (calcFn w) as [[noo|e] w'].
Qed.

(** ** The resolved hash type *)

(** Whenever [determineHashType] returns, the hash type is [CUSTOM]
    exactly when a seed was given, and otherwise it is the explicit hash
    type, or [SOURCE] in its absence. *)
Theorem determineHashType_custom_iff_seed (assetHashType : option AssetHashType)
    (customSourceFingerprint : option string) (t : AssetHashType) :
  determineHashType assetHashType customSourceFingerprint = Ok t →
  (t = CUSTOM ↔ truthy customSourceFingerprint = true)
  ∧ (t ≠ CUSTOM → t = nullish assetHashType SOURCE).
Proof.
  unfold determineHashType.
  destruct (truthy customSourceFingerprint), assetHashType as [[]|]; simpl;
    intros [= <-]; split; try split; try done.
Qed.

Lemma determineHashType_custom_iff_seed_witness :
  (CUSTOM = CUSTOM ↔ truthy (Some "v1") = true)
  ∧ (CUSTOM ≠ CUSTOM → CUSTOM = nullish None SOURCE).
Proof. apply (determineHashType_custom_iff_seed None (Some "v1") CUSTOM). reflexivity. Defined.

(** ** Placement onto a free target *)

Lemma set_files_id (f : gmap string Node → gmap string Node) (w : World) :
  f (files w) = files w → set_files f w = w.
Proof. intros Hf. destruct w as [fs tr]. unfold set_files. simpl in *. now rewrite Hf. Qed.

Section PlacementMore.
Context `{Collaborators}.

(** What [stageAsset] does when the target is free. *)
Lemma stageAsset_absent (this : AssetStaging) (src tgt : string)
    (style : Style) (w : World) :
  files w !! tgt = None →
  stageAsset this src tgt style w =
  match style with
  | move => renameSync src tgt w
  | copy =>
      (stat ← statSync src;
       match stat with
       | File _ _ => copyFileSync src tgt
       | Dir _ _ =>
           mkdirSync tgt;;
           FileSystem_copyDirectory src tgt (fingerprintOptions this)
       | Special _ => throw (UnknownFileType src)
       end) w
  end.
Proof.
  intros Htgt. unfold stageAsset.
  unfold mbind at 1. unfold St_bind at 1.
  rewrite existsSync_eq, is_Some_None_false by done.
  now destruct style.
Qed.

(** Style [move] onto a free target: the target takes over what the
    source held and the source is gone; no other path changes and
    nothing is copied.  A source that is missing makes the move fail with
    [ENOENT], the world untouched. *)
Theorem stageAsset_moves (this : AssetStaging) (src tgt : string) (w : World) :
  files w !! tgt = None →
  match files w !! src with
  | Some n =>
      ∃ w1, stageAsset this src tgt move w = (Ok (), w1)
        ∧ files w1 !! tgt = Some n
        ∧ files w1 !! src = None
        ∧ (∀ p, p ≠ src → p ≠ tgt → files w1 !! p = files w !! p)
        ∧ trace w1 = trace w
  | None => stageAsset this src tgt move w = (Throw (SystemError "ENOENT" src), w)
  end.
Proof.
  intros Htgt. rewrite stageAsset_absent by done. unfold renameSync.
  destruct (files w !! src) as [n|] eqn:Hsrc; [|reflexivity].
  assert (src ≠ tgt) as Hne by congruence.
  rewrite bool_decide_eq_false_2, Htgt by done.
  eexists. split; [reflexivity|]. simpl. split_and!; [| | |done].
  - apply lookup_insert_eq.
  - rewrite lookup_insert_ne by done. apply lookup_delete_eq.
  - intros p Hp1 Hp2. now rewrite lookup_insert_ne, lookup_delete_ne by done.
Qed.

(** Style [copy] of a file onto a free target: the target is a file with
    the content and mode of the source, every other path, the source
    included, is as before, and the one copy is on the trace. *)
Theorem stageAsset_copies_file (this : AssetStaging) (src tgt : string)
    (w : World) (mode : N) (content : string) :
  files w !! tgt = None →
  files w !! src = Some (File mode content) →
  ∃ w1, stageAsset this src tgt copy w = (Ok (), w1)
    ∧ files w1 !! tgt = Some (File mode content)
    ∧ (∀ p, p ≠ tgt → files w1 !! p = files w !! p)
    ∧ trace w1 = (trace w ++ [CopyFile src tgt])%list.
Proof.
  intros Htgt Hsrc. rewrite stageAsset_absent by done.
  unfold mbind, St_bind, statSync. rewrite Hsrc.
  unfold copyFileSync. rewrite Hsrc, Htgt.
  eexists. split; [reflexivity|]. simpl. split_and!; [| |done].
  - apply lookup_insert_eq.
  - intros p Hp. now rewrite lookup_insert_ne.
Qed.

(** Style [copy] of a source that is neither a file nor a directory, or is
    not there at all, fails and leaves the world as it is. *)
Theorem stageAsset_copy_unsupported (this : AssetStaging) (src tgt : string)
    (w : World) :
  files w !! tgt = None →
  (∀ mode, files w !! src = Some (Special mode) →
     stageAsset this src tgt copy w = (Throw (UnknownFileType src), w))
  ∧ (files w !! src = None →
     stageAsset this src tgt copy w = (Throw (SystemError "ENOENT" src), w)).
Proof.
  intros Htgt. rewrite stageAsset_absent by done.
  unfold mbind, St_bind, statSync. split.
  - intros mode Hsrc. now rewrite Hsrc.
  - intros Hsrc. now rewrite Hsrc.
Qed.

(** Placement is idempotent: once [stageAsset] has returned and the
    target is there, the same call again returns without changing
    anything; after a [move] the target is always there. *)
Theorem stageAsset_idempotent (this : AssetStaging) (src tgt : string)
    (style : Style) (w w1 : World) :
  stageAsset this src tgt style w = (Ok (), w1) →
  (is_Some (files w1 !! tgt) → stageAsset this src tgt style w1 = (Ok (), w1))
  ∧ (style = move → is_Some (files w1 !! tgt)).
Proof.
  intros Hfirst.
  assert (style = move → src ≠ tgt → files w1 !! src = None) as Hgone.
  { intros -> Hne. destruct (files w !! tgt) as [t|] eqn:Htgt.
    - rewrite stageAsset_present in Hfirst by done.
      rewrite bool_decide_eq_true_2, bool_decide_eq_false_2 in Hfirst by done.
      injection Hfirst as <-. apply lookup_delete_eq.
    - rewrite stageAsset_absent in Hfirst by done. unfold renameSync in Hfirst.
      destruct (files w !! src) as [n|]; [|discriminate].
      rewrite bool_decide_eq_false_2, Htgt in Hfirst by done.
      injection Hfirst as <-. simpl.
      rewrite lookup_insert_ne by done. apply lookup_delete_eq. }
  split.
  - intros Hthere. rewrite stageAsset_present by done. f_equal.
    destruct style; simpl; [|reflexivity].
    destruct (decide (src = tgt)) as [->|Hne].
    + now rewrite bool_decide_eq_true_2.
    + rewrite bool_decide_eq_false_2 by done. simpl.
      apply set_files_id, delete_id. now apply Hgone.
  - intros ->. destruct (files w !! tgt) as [t|] eqn:Htgt.
    + rewrite stageAsset_present in Hfirst by done.
      destruct (decide (src = tgt)) as [->|Hne].
      * rewrite !bool_decide_eq_true_2 in Hfirst by done.
        injection Hfirst as <-. now rewrite Htgt.
      * rewrite bool_decide_eq_true_2, bool_decide_eq_false_2 in Hfirst by done.
        injection Hfirst as <-. simpl. rewrite lookup_delete_ne, Htgt by done. done.
    + rewrite stageAsset_absent in Hfirst by done. unfold renameSync in Hfirst.
      destruct (files w !! src) as [n|] eqn:Hsrc; [|discriminate].
      assert (src ≠ tgt) as Hne by congruence.
      rewrite bool_decide_eq_false_2, Htgt in Hfirst by done.
      injection Hfirst as <-. simpl. rewrite lookup_insert_eq. done.
Qed.

End PlacementMore.

(** ** File names *)

Lemma append_cancel_r (s1 s2 e : string) : s1 +:+ e = s2 +:+ e → s1 = s2.
Proof.
  revert s2; induction s1 as [|c s1 IH]; intros [|c2 s2] Heq.
  - reflexivity.
  - apply (f_equal String.length) in Heq.
    change (EmptyString +:+ e) with e in Heq.
    rewrite append_cons in Heq. simpl in Heq. rewrite append_length in Heq. lia.
  - apply (f_equal String.length) in Heq.
    change (EmptyString +:+ e) with e in Heq.
    rewrite append_cons in Heq. simpl in Heq. rewrite append_length in Heq. lia.
  - rewrite !append_cons in Heq. injection Heq as -> Heq. f_equal. now apply IH.
Qed.

(** Two hashes that differ give two file names that differ, under any one
    extension: staged assets of different content never share a name. *)
Theorem renderAssetFilename_distinct (h1 h2 extension : string) :
  h1 ≠ h2 → renderAssetFilename h1 extension ≠ renderAssetFilename h2 extension.
Proof.
  intros Hne Heq. apply Hne. unfold renderAssetFilename in Heq.
  apply (inj (String.append "asset.")) in Heq.
  now apply append_cancel_r in Heq.
Qed.

Lemma renderAssetFilename_distinct_witness :
  renderAssetFilename "0a" ".zip" ≠ renderAssetFilename "0b" ".zip".
Proof. apply renderAssetFilename_distinct. discriminate. Defined.

(** ** Hashes *)

Section HashMore.
Context `{Collaborators}.

(** An [assetHash] that is the empty string is taken by
    [determineHashType] as no seed, so that the hash type is [SOURCE];
    [calculateHash] with bundling takes it as the seed all the same: the
    hash is the digest of the bundling configuration alone, in every
    world, and the source is not fingerprinted. *)
Theorem calculateHash_empty_seed :
  determineHashType None (Some EmptyString) = Ok SOURCE
  ∧ ∀ (this : AssetStaging) (bundling : BundlingOptions)
      (outputDir : option string) (w : World),
      customSourceFingerprint this = Some EmptyString →
      calculateHash this SOURCE (Some bundling) outputDir w
      = (Ok (sha256_hex (stringify_bundling bundling)), w).
Proof.
  split; [reflexivity|]. intros this bundling outputDir w Hseed.
  unfold calculateHash. simpl. now rewrite Hseed.
Qed.

(** With a seed, [calculateHash(CUSTOM)] is the digest of the seed and of
    the bundling configuration, if any; it does not depend on the file
    system. *)
Theorem calculateHash_seed_only (this : AssetStaging) (seed : string)
    (bundling : option BundlingOptions) (outputDir : option string) (w w' : World) :
  customSourceFingerprint this = Some seed →
  calculateHash this CUSTOM bundling outputDir w
  = (Ok (sha256_hex (seed +:+ from_option stringify_bundling EmptyString bundling)), w)
  ∧ (calculateHash this CUSTOM bundling outputDir w).1
    = (calculateHash this CUSTOM bundling outputDir w').1.
Proof.
  intros Hseed. unfold calculateHash. simpl. rewrite Hseed.
  now destruct bundling.
Qed.

End HashMore.

(** ** Staging by copying *)

Section CopyMore.
Context `{Collaborators}.

(** [stageByCopying] without [skip], for a source that is a file and a
    staged path that is free: the result names the hash of the resolved
    hash type and the path [asset.<hash><ext>] in the output directory;
    that path then holds a file with the content of the source, and every
    other path, the source included, is as before. *)
Theorem stageByCopying_stages_file (this : AssetStaging) (w : World)
    (h : string) (mode : N) (content : string) :
  copy_hash this (files w) = Ok h →
  let staged := path_resolve (outdir this)
                  (renderAssetFilename h (path_extname (sourcePath this))) in
  files w !! sourcePath this = Some (File mode content) →
  files w !! staged = None →
  ∃ w1, stageByCopying this false w
        = (Ok {| stagedPath := staged; assetHash := h |}, w1)
    ∧ files w1 !! staged = Some (File mode content)
    ∧ (∀ p, p ≠ staged → files w1 !! p = files w !! p)
    ∧ trace w1 = (trace w ++ [CopyFile (sourcePath this) staged])%list.
Proof.
  intros Hh staged Hsrc Hfree. unfold stageByCopying.
  unfold mbind at 1. unfold St_bind at 1. rewrite calculateHash_copy, Hh.
  fold staged. unfold mbind, St_bind. rewrite stageAsset_absent by done.
  unfold mbind, St_bind, statSync. rewrite Hsrc.
  unfold copyFileSync. rewrite Hsrc, Hfree.
  eexists. split; [reflexivity|]. simpl. split_and!; [| |done].
  - apply lookup_insert_eq.
  - intros p Hp. now rewrite lookup_insert_ne.
Qed.

(** [stageByCopying] without [skip] when the staged path is there
    already: the same result, and nothing is copied or changed. *)
Theorem stageByCopying_reuses (this : AssetStaging) (w : World) (h : string) :
  copy_hash this (files w) = Ok h →
  let staged := path_resolve (outdir this)
                  (renderAssetFilename h (path_extname (sourcePath this))) in
  is_Some (files w !! staged) →
  stageByCopying this false w = (Ok {| stagedPath := staged; assetHash := h |}, w).
Proof.
  intros Hh staged Hthere. unfold stageByCopying.
  unfold mbind at 1. unfold St_bind at 1. rewrite calculateHash_copy, Hh.
  fold staged. unfold mbind, St_bind. now rewrite stageAsset_present by done.
Qed.

End CopyMore.

(** ** Bundling, run after run *)

Section BundlingMore.
Context `{Collaborators}.

(** [calculateHash] for [BUNDLE] and [OUTPUT] with an output directory. *)
Lemma calculateHash_of_output (this : AssetStaging) (t : AssetHashType)
    (bundling : option BundlingOptions) (d : string) (w : World) :
  t = BUNDLE ∨ t = OUTPUT → truthy d = true →
  calculateHash this t bundling (Some d) w
  = (fingerprint (files w) d (fingerprintOptions this), w).
Proof.
  intros [-> | ->] Hd; unfold calculateHash; simpl; now rewrite Hd.
Qed.

(** The hash [stageByBundling] has before it bundles, if any. *)
Definition early_hash (this : AssetStaging) (bundling : BundlingOptions)
    (w : World) : Result (option string) :=
  if bool_decide (hashType this = SOURCE) || bool_decide (hashType this = CUSTOM)
  then Some <$> (calculateHash this (hashType this) (Some bundling) None w).1
  else Ok None.

Lemma calculateHash_world (this : AssetStaging) (t : AssetHashType)
    (bundling : option BundlingOptions) (outputDir : option string) (w : World) :
  (calculateHash this t bundling outputDir w).2 = w.
Proof.
  unfold calculateHash, mbind, St_bind, mret, St_ret, FileSystem_fingerprint, throw.
  destruct (bool_decide (t = CUSTOM)
            || bool_decide (t = SOURCE) && bool_decide (is_Some bundling)).
  - destruct (customSourceFingerprint this); [reflexivity|].
    now destruct (fingerprint _ _ _).
  - destruct t; try reflexivity; destruct outputDir as [d|]; try reflexivity;
      now destruct (truthy d).
Qed.

(** [stageByBundling] without [skip], up to the call of [bundle]. *)
Lemma stageByBundling_bundles (this : AssetStaging) (bundling : BundlingOptions)
    (w : World) (early : option string) :
  early_hash this bundling w = Ok early →
  stageByBundling this bundling false w =
  (let bundleDir := determineBundleDir this (outdir this) early in
   bundle this bundling bundleDir;;
   assetHash ←
     match early with
     | Some h => mret h
     | None => calculateHash this (hashType this) (Some bundling) (Some bundleDir)
     end;
   let stagedPath :=
     path_resolve (outdir this) (renderAssetFilename assetHash EmptyString) in
   stageAsset this bundleDir stagedPath move;;
   mret {| assetHash := assetHash; stagedPath := stagedPath |}) w.
Proof.
  unfold early_hash, stageByBundling. intros Hearly.
  unfold mbind at 1. unfold St_bind at 1.
  destruct (bool_decide (hashType this = SOURCE)
            || bool_decide (hashType this = CUSTOM)).
  - pose proof (calculateHash_world this (hashType this) (Some bundling) None w) as Hw.
    unfold mbind at 1. unfold St_bind at 1.
    destruct (calculateHash this (hashType this) (Some bundling) None w) as [[h|e] w0];
      simpl in *; [|discriminate].
    injection Hearly as <-. now subst w0.
  - injection Hearly as <-. reflexivity.
Qed.

(** A bundling that fails fails the staging with the same error, in the
    world [bundle] left: nothing is placed in the output directory. *)
Theorem stageByBundling_bundle_failure (this : AssetStaging)
    (bundling : BundlingOptions) (w w1 : World) (early : option string) (e : Exn) :
  early_hash this bundling w = Ok early →
  bundle this bundling (determineBundleDir this (outdir this) early) w = (Throw e, w1) →
  stageByBundling this bundling false w = (Throw e, w1).
Proof.
  intros Hearly Hbundle. rewrite (stageByBundling_bundles _ _ _ _ Hearly).
  simpl. unfold mbind at 1. unfold St_bind at 1. now rewrite Hbundle.
Qed.

(** With hash type [BUNDLE] or [OUTPUT] the bundle directory is the
    temporary one named after the cache key.  Once [bundle] has returned
    with that directory in place, the hash is the fingerprint of the
    directory, and the directory is moved to [asset.<hash>]: the
    temporary path is free again, and the staged path holds the output,
    or what it held before if it was there already. *)
Theorem stageByBundling_output_hash (this : AssetStaging)
    (bundling : BundlingOptions) (w w1 : World) (n : Node) (h : string) :
  hashType this = BUNDLE ∨ hashType this = OUTPUT →
  let temp := path_resolve (outdir this) ("bundling-temp-" +:+ cacheKey this) in
  let staged := path_resolve (outdir this) (renderAssetFilename h EmptyString) in
  truthy temp = true →
  temp ≠ staged →
  bundle this bundling temp w = (Ok (), w1) →
  files w1 !! temp = Some n →
  fingerprint (files w1) temp (fingerprintOptions this) = Ok h →
  ∃ w2, stageByBundling this bundling false w
        = (Ok {| stagedPath := staged; assetHash := h |}, w2)
    ∧ files w2 !! temp = None
    ∧ files w2 !! staged = Some (default n (files w1 !! staged))
    ∧ (∀ p, p ≠ temp → p ≠ staged → files w2 !! p = files w1 !! p).
Proof.
  intros Ht temp staged Htemp Hne Hbundle Hn Hh.
  assert (early_hash this bundling w = Ok None) as Hearly.
  { unfold early_hash. now destruct Ht as [-> | ->]. }
  rewrite (stageByBundling_bundles _ _ _ _ Hearly).
  change (determineBundleDir this (outdir this) None) with temp. simpl.
  unfold mbind at 1. unfold St_bind at 1. rewrite Hbundle.
  unfold mbind at 1. unfold St_bind at 1.
  rewrite calculateHash_of_output, Hh by done. fold staged.
  unfold mbind, St_bind.
  destruct (files w1 !! staged) as [old|] eqn:Hold.
  - rewrite stageAsset_present by done.
    rewrite bool_decide_eq_true_2, bool_decide_eq_false_2 by done. simpl.
    eexists. split; [reflexivity|]. simpl. split_and!.
    + apply lookup_delete_eq.
    + now rewrite lookup_delete_ne.
    + intros p Hp _. now rewrite lookup_delete_ne.
  - rewrite stageAsset_absent by done. unfold renameSync. rewrite Hn.
    rewrite bool_decide_eq_false_2, Hold by done.
    eexists. split; [reflexivity|]. simpl. split_and!.
    + rewrite lookup_insert_ne by done. apply lookup_delete_eq.
    + apply lookup_insert_eq.
    + intros p Hp1 Hp2. now rewrite lookup_insert_ne, lookup_delete_ne by done.
Qed.

(** After the error of an empty output the bundle directory is still in
    place, so that [bundle] on the same directory again returns at once,
    without running anything. *)
Theorem bundle_after_empty_output (this : AssetStaging) (options : BundlingOptions)
    (bundleDir : string) (w w1 : World) (localBundling : option bool) :
  files w !! bundleDir = None →
  bundle_try this options bundleDir (set_files <[bundleDir := Dir 511 []]> w)
  = (Ok localBundling, w1) →
  isEmpty (files w1) bundleDir = Ok true →
  is_Some (files w1 !! bundleDir) →
  is_throw (bundle this options bundleDir w).1 = true
  ∧ (bundle this options bundleDir w).2 = w1
  ∧ bundle this options bundleDir w1 = (Ok (), w1).
Proof.
  intros Hd Htry Hempty Hthere.
  rewrite (bundle_ran this options bundleDir w w1 localBundling) by done.
  rewrite Hempty. split_and!; [done | done |]. now apply bundle_present.
Qed.

(** The line [bundle] writes to stderr when it starts bundling. *)
Definition announcement (this : AssetStaging) : Event :=
  StderrWrite ("Bundling asset " +:+ node_path this +:+ "..." +:+ newline).

(** The [try] block first announces the bundling, and whatever follows
    only adds to the trace. *)
Lemma bundle_try_trace (this : AssetStaging) (options : BundlingOptions)
    (bundleDir : string) (w : World) :
  ∃ rest, trace (bundle_try this options bundleDir w).2
          = (trace w ++ announcement this :: rest)%list.
Proof.
  unfold bundle_try, announcement. run.
  destruct (local options) as [l|]; simpl.
  - destruct (tryBundle l bundleDir (files w)) as [[[|]|e] fs1]; simpl.
    + eexists. rewrite <- app_assoc. reflexivity.
    + destruct (run (image options) _ fs1) as [[[]|e] fs2]; simpl;
        eexists; rewrite <- !app_assoc; reflexivity.
    + eexists. rewrite <- app_assoc. reflexivity.
  - destruct (run (image options) _ (files w)) as [[[]|e] fs2]; simpl;
      eexists; rewrite <- !app_assoc; reflexivity.
Qed.

Lemma bundle_catch_trace (this : AssetStaging) (bundleDir : string) (err : Exn)
    (w : World) :
  trace (bundle_catch this bundleDir err w).2 = trace w.
Proof.
  unfold bundle_catch. run.
  destruct (bool_decide (is_Some (files w !! (bundleDir +:+ "-error")))); simpl;
    unfold renameSync; simpl.
  - destruct (delete _ (files w) !! bundleDir) as [n|]; [|reflexivity].
    destruct (bool_decide (bundleDir = bundleDir +:+ "-error")); [reflexivity|].
    destruct (delete _ (files w) !! _) as [[| ? [|]|]|], n; reflexivity.
  - destruct (files w !! bundleDir) as [n|]; [|reflexivity].
    destruct (bool_decide (bundleDir = bundleDir +:+ "-error")); [reflexivity|].
    destruct (files w !! (bundleDir +:+ "-error")) as [[| ? [|]|]|], n; reflexivity.
Qed.

(** [bundle] into a directory that does not exist announces the bundling. *)
Lemma bundle_fresh_trace (this : AssetStaging) (options : BundlingOptions)
    (bundleDir : string) (w : World) :
  files w !! bundleDir = None →
  ∃ rest, trace (bundle this options bundleDir w).2
          = (trace w ++ announcement this :: rest)%list.
Proof.
  intros Hd. rewrite bundle_fresh by done.
  destruct (bundle_try_trace this options bundleDir
              (set_files <[bundleDir := Dir 511 []]> w)) as [rest Hrest].
  exists rest. simpl in Hrest. rewrite <- Hrest.
  unfold mbind at 1. unfold St_bind at 1. unfold try_catch.
  destruct (bundle_try this options bundleDir _) as [[lb|err] w1]; simpl.
  - unfold mbind, St_bind, FileSystem_isEmpty, throw, mret, St_ret.
    now destruct (isEmpty (files w1) bundleDir) as [[|]|e].
  - pose proof (bundle_catch_trace this bundleDir err w1) as Hc.
    destruct (bundle_catch this bundleDir err w1) as [[lb|e] w2]; simpl in *; [|done].
    unfold mbind, St_bind, FileSystem_isEmpty, throw, mret, St_ret.
    now destruct (isEmpty (files w2) bundleDir) as [[|]|e].
Qed.

(** After a failed execution the bundle directory is out of the way, so
    that [bundle] on the same directory again does not return early: it
    announces the bundling and runs the [try] block once more. *)
Theorem bundle_after_failure (this : AssetStaging) (options : BundlingOptions)
    (bundleDir : string) (w w1 : World) (err : Exn) (n : Node) :
  files w !! bundleDir = None →
  bundle_try this options bundleDir (set_files <[bundleDir := Dir 511 []]> w)
  = (Throw err, w1) →
  files w1 !! bundleDir = Some n →
  let w2 := (bundle this options bundleDir w).2 in
  files w2 !! bundleDir = None
  ∧ ∃ rest, trace (bundle this options bundleDir w2).2
            = (trace w2 ++ announcement this :: rest)%list.
Proof.
  intros Hd Htry Hn w2. subst w2.
  rewrite (bundle_failure this options bundleDir w w1 err n) by done. simpl.
  assert (files (set_files (fun fs => <[bundleDir +:+ "-error" := n]>
            (delete bundleDir (delete (bundleDir +:+ "-error") fs))) w1)
          !! bundleDir = None) as Hgone
    by apply (bundle_failure_files bundleDir w1 n).
  split; [exact Hgone | exact (bundle_fresh_trace this options bundleDir _ Hgone)].
Qed.

(** A local bundler that takes the job keeps the container from running:
    after the announcement the only call is [tryBundle], and the files are
    as the local bundler left them. *)
Theorem bundle_try_local (this : AssetStaging) (options : BundlingOptions)
    (bundleDir : string) (w : World) (l : ILocalBundling)
    (fs1 : gmap string Node) :
  local options = Some l →
  tryBundle l bundleDir (files w) = (Ok true, fs1) →
  bundle_try this options bundleDir w
  = (Ok (Some true),
     {| files := fs1;
        trace := (trace w ++ [announcement this; TryBundle bundleDir])%list |}).
Proof.
  intros Hl Htry. unfold bundle_try, announcement. run. rewrite Hl. simpl.
  rewrite Htry. simpl. now rewrite <- app_assoc.
Qed.

(** The user of the container: [options.user] when it is given and not
    empty; else the uid and gid of the current user, or [1000:1000] where
    the uid is -1. *)
Lemma bundle_user_eq (options : BundlingOptions) :
  bundle_user options =
  match user options with
  | Some (String c u) => String c u
  | _ =>
      if bool_decide (os_userInfo.1 = (-1)%Z) then "1000:1000"
      else pretty os_userInfo.1 +:+ ":" +:+ pretty os_userInfo.2
  end.
Proof.
  unfold bundle_user, current_user.
  destruct os_userInfo as [uid gid]. simpl.
  assert ((if bool_decide (uid ≠ (-1)%Z)
           then pretty uid +:+ ":" +:+ pretty gid else "1000:1000")
          = (if bool_decide (uid = (-1)%Z) then "1000:1000"
             else pretty uid +:+ ":" +:+ pretty gid)) as Hcurrent.
  { destruct (decide (uid = (-1)%Z)) as [Huid|Huid].
    - rewrite (bool_decide_eq_true_2 _ Huid).
      rewrite bool_decide_eq_false_2; [reflexivity|]. intros Hne. now apply Hne.
    - rewrite (bool_decide_eq_false_2 _ Huid).
      now rewrite bool_decide_eq_true_2. }
  destruct (user options) as [[|c u]|]; simpl; auto.
Qed.

(** Without a local bundler, or when it declines, the container runs,
    with the source mounted at [/asset-input] and the bundle directory at
    [/asset-output] before any other volume; as [options.user] when that
    is given and not empty, and else as the uid and gid of the current
    user, or [1000:1000] where the uid is -1; and in [/asset-input] unless
    a working directory is given.  What [image.run] throws is what the
    [try] block throws. *)
Theorem bundle_try_image (this : AssetStaging) (options : BundlingOptions)
    (bundleDir : string) (w : World) :
  let fs1 :=
    match local options with
    | Some l => (tryBundle l bundleDir (files w)).2
    | None => files w
    end in
  let calls :=
    match local options with
    | Some l => [announcement this; TryBundle bundleDir]
    | None => [announcement this]
    end in
  let options' :=
    {| run_command := command options;
       run_user :=
         match user options with
         | Some (String c u) => String c u
         | _ =>
             if bool_decide (os_userInfo.1 = (-1)%Z) then "1000:1000"
             else pretty os_userInfo.1 +:+ ":" +:+ pretty os_userInfo.2
         end;
       run_volumes :=
         {| hostPath := sourcePath this; containerPath := "/asset-input" |}
         :: {| hostPath := bundleDir; containerPath := "/asset-output" |}
         :: nullish (volumes options) [];
       run_environment := environment options;
       run_workingDirectory := nullish (workingDirectory options) "/asset-input" |} in
  (∀ l, local options = Some l → (tryBundle l bundleDir (files w)).1 = Ok false) →
  bundle_try this options bundleDir w
  = ((fun _ => (fun _ => false) <$> local options)
       <$> (run (image options) options' fs1).1,
     {| files := (run (image options) options' fs1).2;
        trace := (trace w ++ calls ++ [ImageRun options'])%list |}).
Proof.
  intros fs1 calls options' Hdeclines. subst fs1 calls.
  unfold bundle_try, announcement, bundle_volumes,
    BUNDLING_INPUT_DIR, BUNDLING_OUTPUT_DIR. rewrite bundle_user_eq. run.
  destruct (local options) as [l|]; simpl.
  - specialize (Hdeclines l eq_refl).
    destruct (tryBundle l bundleDir (files w)) as [r fs1]. simpl in *. subst r.
    simpl. fold options'.
    destruct (run (image options) options' fs1) as [[[]|e] fs2]; simpl;
      rewrite <- !app_assoc; reflexivity.
  - fold options'.
    destruct (run (image options) options' (files w)) as [[[]|e] fs2]; simpl;
      rewrite <- !app_assoc; reflexivity.
Qed.

End BundlingMore.

(** ** The canonical form *)

(** A [null] that [sortObject] reaches: the value itself, or the value of
    a property at any depth, not looking into arrays. *)
Fixpoint reaches_null (v : JsValue) : bool :=
  match v with
  | JNull => true
  | JObj props => existsb (fun kv : string * JsValue => reaches_null kv.2) props
  | _ => false
  end.

Lemma sortObject_object_eq (props : list (string * JsValue)) :
  sortObject (JObj props) =
  if forallb sortable props
  then Ok (JObj (rebuild props.*1 (sorted_prop <$> props)))
  else Throw null_to_object.
Proof.
  rewrite sortObject_object, sortProps_eq.
  now destruct (forallb sortable props).
Qed.

Lemma sortObject_is_throw (v : JsValue) : is_throw (sortObject v) = reaches_null v.
Proof.
  induction v as [| |c|n|s|elems _|props IH] using JsValue_nested_ind;
    try reflexivity.
  rewrite sortObject_object_eq.
  assert (forallb sortable props = negb (reaches_null (JObj props))) as ->.
  { simpl. induction IH as [|[k x] ps Hx _ IHps]; [reflexivity|].
    simpl in *. unfold sortable at 1. simpl. rewrite Hx, IHps.
    now destruct (reaches_null x), (existsb _ ps). }
  now destruct (reaches_null (JObj props)).
Qed.

(** [sortObject] throws exactly on the values in which it reaches a
    [null], and then it is the [TypeError] of [Object.keys(null)]; a
    [null] inside an array does no harm. *)
Theorem sortObject_throws_iff_null (v : JsValue) :
  is_throw (sortObject v) = reaches_null v
  ∧ (∀ e, sortObject v = Throw e → e = null_to_object)
  ∧ ∀ elems, is_throw (sortObject (JArr (JNull :: elems))) = false.
Proof.
  split_and!; [apply sortObject_is_throw | apply sortObject_throws | reflexivity].
Qed.

Lemma obj_insert_index_Permutation (i : N) (k : string) (v : JsValue)
    (o : list (string * JsValue)) :
  obj_insert_index i k v o ≡ₚ (k, v) :: o.
Proof.
  induction o as [|[k' x] o IH]; [reflexivity|]. simpl.
  destruct (array_index k') as [j|]; [|reflexivity].
  destruct (j <? i)%N; [|reflexivity].
  rewrite IH. apply perm_swap.
Qed.

(** The keys that become own properties of the object [sortObject]
    builds: all but [__proto__]. *)
Definition own_keys (keys : list string) : list string :=
  filter (fun k => k ≠ "__proto__") keys.

(** Setting [__proto__] adds no property. *)
Lemma obj_set_proto (v : JsValue) (o : list (string * JsValue)) :
  obj_set "__proto__" v o = o.
Proof. reflexivity. Qed.

(** Setting another key the object does not have adds one property. *)
Lemma obj_set_fresh (k : string) (v : JsValue) (o : list (string * JsValue)) :
  k ≠ "__proto__" → k ∉ o.*1 → obj_set k v o ≡ₚ (k, v) :: o.
Proof.
  intros Hproto Hk. unfold obj_set. rewrite !bool_decide_eq_false_2 by done.
  destruct (array_index k) as [i|].
  - apply obj_insert_index_Permutation.
  - symmetry. apply Permutation_cons_append.
Qed.

Lemma foldl_obj_set (sorted acc : list (string * JsValue)) (keys : list string) :
  NoDup keys → (∀ k, k ∈ keys → k ∉ acc.*1) →
  foldl (fun ret key => obj_set key (obj_get key sorted) ret) acc keys
  ≡ₚ acc ++ ((fun k => (k, obj_get k sorted)) <$> own_keys keys).
Proof.
  revert acc. induction keys as [|k keys IH]; intros acc Hnd Hfresh.
  - simpl. now rewrite app_nil_r.
  - apply NoDup_cons in Hnd as [Hk Hnd]. simpl.
    destruct (decide (k = "__proto__")) as [->|Hproto].
    + rewrite obj_set_proto. unfold own_keys.
      rewrite filter_cons_False by (intros Hne; now apply Hne).
      apply IH; [done|]. intros k' Hk'. apply Hfresh, elem_of_cons. now right.
    + assert (obj_set k (obj_get k sorted) acc ≡ₚ (k, obj_get k sorted) :: acc)
        as Hset.
      { apply obj_set_fresh; [done|]. apply Hfresh, elem_of_cons. now left. }
      unfold own_keys. rewrite filter_cons_True by done.
      rewrite IH; [| done |].
      * rewrite Hset. rewrite fmap_cons. simpl. apply Permutation_middle.
      * intros k' Hk' Hin. rewrite Hset in Hin. rewrite fmap_cons in Hin.
        apply elem_of_cons in Hin as [->|Hin]; [done|].
        apply (Hfresh k'); [|done]. apply elem_of_cons. now right.
Qed.

(** The object [sortObject] builds has one property for each key other
    than [__proto__]. *)
Lemma rebuild_Permutation (keys : list string) (sorted : list (string * JsValue)) :
  NoDup keys →
  rebuild keys sorted ≡ₚ (fun k => (k, obj_get k sorted)) <$> own_keys keys.
Proof.
  intros Hnd. unfold rebuild. rewrite foldl_obj_set.
  - simpl. unfold own_keys. now rewrite merge_sort_Permutation.
  - now rewrite merge_sort_Permutation.
  - intros k _ Hin. simpl in Hin. now apply elem_of_nil in Hin.
Qed.

Lemma rebuild_keys (keys : list string) (sorted : list (string * JsValue)) :
  NoDup keys → (rebuild keys sorted).*1 ≡ₚ own_keys keys.
Proof.
  intros Hnd. rewrite (rebuild_Permutation _ _ Hnd).
  rewrite <- list_fmap_compose. simpl.
  now rewrite list_fmap_id.
Qed.

Lemma rebuild_elem (keys : list string) (sorted : list (string * JsValue))
    (k : string) (x : JsValue) :
  NoDup keys →
  (k, x) ∈ rebuild keys sorted
  ↔ k ∈ keys ∧ k ≠ "__proto__" ∧ x = obj_get k sorted.
Proof.
  intros Hnd. rewrite (rebuild_Permutation _ _ Hnd), list_elem_of_fmap. split.
  - intros (k' & [= -> ->] & Hin). apply list_elem_of_filter in Hin as [Hp Hin].
    done.
  - intros (Hin & Hp & ->). exists k. split; [done|].
    now apply list_elem_of_filter.
Qed.

(** The loop of [sortObject] passes over [__proto__]: the object it
    builds is the one it builds from the other keys. *)
Lemma foldl_own_keys (sorted acc : list (string * JsValue)) (keys : list string) :
  foldl (fun ret key => obj_set key (obj_get key sorted) ret) acc keys
  = foldl (fun ret key => obj_set key (obj_get key sorted) ret) acc (own_keys keys).
Proof.
  revert acc. induction keys as [|k keys IH]; intros acc; [reflexivity|].
  simpl. unfold own_keys. destruct (decide (k = "__proto__")) as [->|Hproto].
  - rewrite obj_set_proto, filter_cons_False by (intros Hne; now apply Hne).
    apply IH.
  - rewrite filter_cons_True by done. simpl. apply IH.
Qed.

Lemma own_keys_sorted (keys : list string) :
  own_keys (merge_sort String.le keys) = merge_sort String.le (own_keys keys).
Proof.
  apply (StronglySorted_unique String.le).
  - unfold own_keys.
    assert (StronglySorted String.le (merge_sort String.le keys)) as Hs
      by (apply StronglySorted_merge_sort; apply _).
    induction Hs as [|k l Hl IH Hk]; [constructor|].
    destruct (decide (k ≠ "__proto__")).
    + rewrite filter_cons_True by done. constructor; [done|].
      apply Forall_forall. intros k' [_ Hk']%list_elem_of_filter.
      rewrite Forall_forall in Hk. now apply Hk.
    + now rewrite filter_cons_False.
  - apply StronglySorted_merge_sort; apply _.
  - unfold own_keys. now rewrite !merge_sort_Permutation.
Qed.

Lemma rebuild_own_keys (keys : list string) (sorted : list (string * JsValue)) :
  rebuild keys sorted = rebuild (own_keys keys) sorted.
Proof.
  unfold rebuild. rewrite foldl_own_keys, own_keys_sorted.
  symmetry. rewrite foldl_own_keys, own_keys_sorted.
  unfold own_keys. now rewrite list_filter_filter_l by done.
Qed.

Lemma sortable_sorted (v : JsValue) :
  sortable ("", v) = true → sortObject v = Ok (sorted_value v).
Proof.
  unfold sortable, sorted_value. simpl. now destruct (sortObject v).
Qed.

Lemma obj_get_sorted_prop (ps : list (string * JsValue)) (k : string) (v : JsValue) :
  NoDup ps.*1 → (k, v) ∈ ps →
  obj_get k (sorted_prop <$> ps) = sorted_value v.
Proof.
  intros Hnd Hin. apply obj_get_unique.
  - now rewrite sorted_prop_keys.
  - apply (list_elem_of_fmap_2 sorted_prop _ (k, v)). exact Hin.
Qed.

(** [sortObject] on an object keeps its content but for [__proto__]: the
    result is an object whose keys are the keys of the argument other
    than [__proto__], each once, and under each of them the sorted form
    of the value the key had.  A property named [__proto__] is lost: the
    assignment [ret[key] = ...] goes to the setter of [Object.prototype]
    and makes no own property.  No property is added. *)
Theorem sortObject_keeps_properties (props : list (string * JsValue))
    (sorted : JsValue) :
  NoDup props.*1 →
  sortObject (JObj props) = Ok sorted →
  ∃ qs, sorted = JObj qs
    ∧ qs.*1 ≡ₚ filter (fun k => k ≠ "__proto__") props.*1
    ∧ "__proto__" ∉ qs.*1
    ∧ (∀ k v, (k, v) ∈ props →
         ∃ x, sortObject v = Ok x ∧ (k ≠ "__proto__" → (k, x) ∈ qs))
    ∧ (∀ k x, (k, x) ∈ qs → ∃ v, (k, v) ∈ props ∧ sortObject v = Ok x).
Proof.
  intros Hnd. rewrite sortObject_object_eq.
  destruct (forallb sortable props) eqn:Hall; [|discriminate].
  intros [= <-]. eexists. split; [reflexivity|].
  assert (∀ k v, (k, v) ∈ props → sortObject v = Ok (sorted_value v)) as Hok.
  { intros k v Hin. apply sortable_sorted.
    rewrite forallb_forall in Hall. apply (Hall (k, v)). now apply list_elem_of_In. }
  split_and!.
  - now apply rebuild_keys.
  - rewrite rebuild_keys by done. unfold own_keys.
    intros [Hne _]%list_elem_of_filter. now apply Hne.
  - intros k v Hin. exists (sorted_value v). split; [now apply (Hok k)|].
    intros Hproto. apply rebuild_elem; [done|]. split_and!; [|done|].
    + apply list_elem_of_fmap. now exists (k, v).
    + symmetry. now apply obj_get_sorted_prop.
  - intros k x (Hk & _ & ->)%rebuild_elem; [|done].
    apply list_elem_of_fmap in Hk as ([k' v] & -> & Hin). simpl.
    exists v. split; [done|].
    rewrite (obj_get_sorted_prop _ _ _ Hnd Hin). now apply (Hok k').
Qed.

(** The canonical form is a fixed point: what [sortObject] returns, it
    returns again when applied to it. *)
Theorem sortObject_idempotent (v sorted : JsValue) :
  unique_keys v = true →
  sortObject v = Ok sorted →
  sortObject sorted = Ok sorted.
Proof.
  revert sorted.
  induction v as [| |c|n|s|elems _|props IH] using JsValue_nested_ind;
    intros sorted Huk; try (intros [= <-]; reflexivity); try discriminate.
  apply unique_keys_object in Huk as [Hnd Huk].
  rewrite sortObject_object_eq.
  destruct (forallb sortable props) eqn:Hall; [|discriminate].
  intros [= <-].
  set (sps := sorted_prop <$> props). set (qs := rebuild props.*1 sps).
  assert (∀ k x, (k, x) ∈ qs → sortObject x = Ok x) as Hfix.
  { intros k x (Hk & _ & ->)%rebuild_elem; [|done].
    apply list_elem_of_fmap in Hk as ([k' v] & -> & Hin). simpl.
    unfold sps. rewrite (obj_get_sorted_prop _ _ _ Hnd Hin).
    rewrite Forall_forall in IH. rewrite Forall_forall in Huk.
    apply (IH (k', v) Hin); [now apply (Huk (k', v))|].
    apply sortable_sorted. rewrite forallb_forall in Hall.
    apply (Hall (k', v)). now apply list_elem_of_In. }
  assert (qs.*1 ≡ₚ own_keys props.*1) as Hkeys
    by (unfold qs; now apply rebuild_keys).
  assert (NoDup qs.*1) as Hndq.
  { rewrite Hkeys. unfold own_keys. now apply NoDup_filter. }
  rewrite sortObject_object_eq.
  assert (forallb sortable qs = true) as ->.
  { apply forallb_forall. intros [k x] Hin%list_elem_of_In.
    unfold sortable. simpl. now rewrite (Hfix k x Hin). }
  do 2 f_equal. unfold qs at 3. rewrite (rebuild_own_keys props.*1).
  apply rebuild_ext; [exact Hkeys|].
  intros k Hk. apply list_elem_of_fmap in Hk as ([k' x] & -> & Hin). simpl.
  rewrite (obj_get_unique (sorted_prop <$> qs) k' x).
  - symmetry. apply rebuild_elem in Hin as (_ & _ & ->); [reflexivity | done].
  - now rewrite sorted_prop_keys.
  - replace (k', x) with (sorted_prop (k', x)).
    + now apply list_elem_of_fmap_2.
    + unfold sorted_prop, sorted_value. simpl. now rewrite (Hfix k' x Hin).
Qed.

(** ** The constructor *)

Section ConstructorFacts.
Context `{Collaborators}.
Variable resolve : string → string.
Variable minimatch : string → string → bool.
Variable hashTypeValue : AssetHashType → string.
Variable bundling_value : BundlingOptions → JsValue.

Abbreviation construct := (construct resolve minimatch hashTypeValue bundling_value).
Abbreviation staging_plan := (staging_plan minimatch).

(** The same scope seen from another construct: only the path differs. *)
Definition at_path (scope : Scope) (path : string) : Scope :=
  {| scope_assetOutdir := scope_assetOutdir scope;
     scope_bundlingStacks := scope_bundlingStacks scope;
     scope_stackName := scope_stackName scope;
     scope_disableStaging := scope_disableStaging scope;
     scope_path := path |}.

Definition with_node_path (this : AssetStaging) (path : string) : AssetStaging :=
  {| sourcePath := sourcePath this;
     fingerprintOptions := fingerprintOptions this;
     hashType := hashType this;
     outdir := outdir this;
     customSourceFingerprint := customSourceFingerprint this;
     cacheKey := cacheKey this;
     node_path := path |}.

(** An asset that has been staged is not staged again: once a
    construction has returned, the same request made from any place in
    the same scope returns the same staged asset, and neither the memo nor
    the world changes. *)
Theorem construct_again (scope : Scope) (props : AssetStagingProps)
    (s s1 : gmap string StagedAsset * World) (this : AssetStaging)
    (staged : StagedAsset) (path : string) :
  construct scope props s = (inr (this, staged), s1) →
  construct (at_path scope path) props s1
  = (inr (with_node_path this path, staged), s1).
Proof.
  unfold construct. simpl.
  destruct (scope_assetOutdir scope) as [outdir|]; [|discriminate].
  destruct (negb (truthy outdir)); [discriminate|].
  destruct (determineHashType _ _) as [t|e]; [|discriminate].
  assert (staging_plan (at_path scope path) props = staging_plan scope props)
    as -> by reflexivity.
  destruct (staging_plan scope props) as [skip stage].
  destruct (calculateCacheKey _) as [key|e]; [|discriminate].
  destruct (obtain key (stage _) s) as [[v|e] s'] eqn:Hob; [|discriminate].
  intros [= <- <- <-]. now rewrite (obtain_hit _ _ _ _ _ _ Hob).
Qed.

(** A construction that fails adds nothing to the memo; when it fails for
    want of an output directory, or on the hash type, it has not
    touched the world either.  A construction that returns leaves its
    staged asset in the memo under its cache key, every other entry
    being as before. *)
Theorem construct_memo (scope : Scope) (props : AssetStagingProps)
    (cache cache1 : gmap string StagedAsset) (w w1 : World)
    (r : ConstructError + AssetStaging * StagedAsset) :
  construct scope props (cache, w) = (r, (cache1, w1)) →
  match r with
  | inl NoOutputDirectory => cache1 = cache ∧ w1 = w
  | inl (Raised e) =>
      cache1 = cache
      ∧ (determineHashType (props_assetHashType props) (props_assetHash props)
         = Throw e → w1 = w)
  | inr (this, staged) =>
      cache1 !! cacheKey this = Some staged
      ∧ ∀ k, k ≠ cacheKey this → cache1 !! k = cache !! k
  end.
Proof.
  unfold construct.
  destruct (scope_assetOutdir scope) as [outdir|]; [|now intros [= <- <- <-]].
  destruct (negb (truthy outdir)); [now intros [= <- <- <-]|].
  destruct (determineHashType _ _) as [t|e0]; [|now intros [= <- <- <-]].
  destruct (staging_plan scope props) as [skip stage].
  destruct (calculateCacheKey _) as [key|e0]; [|intros [= <- <- <-]; split; [done|discriminate]].
  destruct (obtain key (stage _) (cache, w)) as [[v|e0] [c' w']] eqn:Hob;
    intros [= <- <- <-]; apply obtain_cache in Hob; simpl.
  - destruct Hob as [[-> Hv] | [-> Hv]].
    + done.
    + split; [apply lookup_insert_eq|]. intros k Hk. now rewrite lookup_insert_ne.
  - split; [done | discriminate].
Qed.

Lemma stageByCopying_skip_result (this : AssetStaging) (w w1 : World)
    (staged : StagedAsset) :
  stageByCopying this true w = (Ok staged, w1) →
  stagedPath staged = sourcePath this ∧ w1 = w.
Proof.
  unfold stageByCopying. unfold mbind at 1. unfold St_bind at 1.
  pose proof (calculateHash_world this (hashType this) None None w) as Hw.
  destruct (calculateHash this (hashType this) None None w) as [[h|e] w0];
    simpl in Hw; subst w0; [|discriminate].
  unfold mbind, St_bind, mret, St_ret.
  destruct (files w !! sourcePath this) as [n|] eqn:Hsrc.
  - rewrite stageAsset_present by done. simpl. now intros [= <- <-].
  - rewrite stageAsset_absent by done.
    unfold mbind, St_bind, statSync. rewrite Hsrc. discriminate.
Qed.

Lemma stageByBundling_skip_result (this : AssetStaging) (bundling : BundlingOptions)
    (w w1 : World) (staged : StagedAsset) :
  stageByBundling this bundling true w = (Ok staged, w1) →
  stagedPath staged = sourcePath this ∧ w1 = w.
Proof.
  unfold stageByBundling. unfold mbind, St_bind, mret, St_ret.
  pose proof (calculateHash_world this SOURCE None None w) as Hw.
  destruct (calculateHash this SOURCE None None w) as [[h|e] w0];
    simpl in Hw; subst w0; [|discriminate].
  now intros [= <- <-].
Qed.

(** When the request is to be skipped (staging disabled for a copy, a
    stack left out of bundling) and the memo has no entry for it, a
    construction that returns refers to the source where it is: the
    staged path is the resolved source path, and the world is as it
    was. *)
Theorem construct_skipped (scope : Scope) (props : AssetStagingProps)
    (cache cache1 : gmap string StagedAsset) (w w1 : World)
    (this : AssetStaging) (staged : StagedAsset) :
  construct scope props (cache, w) = (inr (this, staged), (cache1, w1)) →
  js_truthy (staging_plan scope props).1 = true →
  cache !! cacheKey this = None →
  stagedPath staged = resolve (props_sourcePath props) ∧ w1 = w.
Proof.
  unfold construct.
  destruct (scope_assetOutdir scope) as [outdir|]; [|discriminate].
  destruct (negb (truthy outdir)); [discriminate|].
  destruct (determineHashType _ _) as [t|e]; [|discriminate].
  unfold staging_plan.
  destruct (props_bundling props) as [bundling|]; cbv beta iota zeta.
  - destruct (calculateCacheKey _) as [key|e]; [|discriminate].
    match goal with
    | |- context [obtain ?k ?f ?s] =>
        destruct (obtain k f s) as [[v|e] [c' w']] eqn:Hob; [|discriminate]
    end.
    intros [= <- <- <- <-] Hskip Hmiss. simpl in Hmiss, Hskip.
    rewrite obtain_absent in Hob by done. rewrite Hskip in Hob.
    destruct (stageByBundling _ bundling true w) as [[v'|e] w''] eqn:Hstage;
      [|discriminate].
    injection Hob as <- <- <-.
    now apply stageByBundling_skip_result in Hstage.
  - destruct (calculateCacheKey _) as [key|e]; [|discriminate].
    match goal with
    | |- context [obtain ?k ?f ?s] =>
        destruct (obtain k f s) as [[v|e] [c' w']] eqn:Hob; [|discriminate]
    end.
    intros [= <- <- <- <-] Hskip Hmiss. simpl in Hmiss, Hskip.
    rewrite obtain_absent in Hob by done. rewrite Hskip in Hob.
    destruct (stageByCopying _ true w) as [[v'|e] w''] eqn:Hstage; [|discriminate].
    injection Hob as <- <- <-.
    now apply stageByCopying_skip_result in Hstage.
Qed.

End ConstructorFacts.

(** ** Reuse of what is on disk, and the shape of a cache key *)

Section ReuseMore.
Context `{Collaborators}.

(** Style [copy] of a directory onto a free target: the target is made
    as an empty directory, and [FileSystem.copyDirectory] is called once,
    on the source and the target, with the fingerprint options of the
    request; its outcome is the outcome of the placement. *)
Theorem stageAsset_copies_directory (this : AssetStaging) (src tgt : string)
    (w : World) (mode : N) (entries : list (string * Node)) :
  files w !! tgt = None →
  files w !! src = Some (Dir mode entries) →
  stageAsset this src tgt copy w =
  (let '(r, fs) := copyDirectory src tgt (fingerprintOptions this)
                     (<[tgt := Dir default_dir_mode []]> (files w)) in
   (r, {| files := fs; trace := (trace w ++ [CopyDirectory src tgt])%list |})).
Proof.
  intros Htgt Hsrc. rewrite stageAsset_absent by done.
  unfold mbind at 1. unfold St_bind at 1. unfold statSync. rewrite Hsrc.
  unfold mbind, St_bind, mkdirSync. rewrite Htgt.
  unfold FileSystem_copyDirectory. run.
  now destruct (copyDirectory _ _ _ _) as [[[]|e] fs].
Qed.

(** With hash type [SOURCE] or [CUSTOM], when [asset.<hash>] is in the
    output directory already, [stageByBundling] returns it without
    bundling: the world, trace included, is as it was. *)
Theorem stageByBundling_reuses (this : AssetStaging) (bundling : BundlingOptions)
    (w : World) (h : string) :
  hashType this = SOURCE ∨ hashType this = CUSTOM →
  (calculateHash this (hashType this) (Some bundling) None w).1 = Ok h →
  let staged := path_resolve (outdir this) (renderAssetFilename h EmptyString) in
  is_Some (files w !! staged) →
  stageByBundling this bundling false w
  = (Ok {| stagedPath := staged; assetHash := h |}, w).
Proof.
  intros Ht Hh staged Hthere.
  destruct (calculateHash this (hashType this) (Some bundling) None w)
    as [r w'] eqn:Hcalc. simpl in Hh. subst r.
  destruct (calculateHash_digest _ _ _ _ _ _ Ht Hcalc) as [-> Htruthy].
  assert (early_hash this bundling w = Ok (Some h)) as Hearly.
  { unfold early_hash. rewrite Hcalc.
    now destruct Ht as [-> | ->]. }
  rewrite (stageByBundling_bundles _ _ _ _ Hearly).
  assert (determineBundleDir this (outdir this) (Some h) = staged) as ->.
  { unfold determineBundleDir. now rewrite Htruthy. }
  simpl. unfold mbind at 1. unfold St_bind at 1.
  rewrite bundle_present by done.
  unfold mbind, St_bind, mret, St_ret. fold staged.
  rewrite stageAsset_present by done.
  replace (bool_decide (staged = staged)) with true
    by (symmetry; now apply bool_decide_eq_true_2).
  reflexivity.
Qed.

(** The cache key of an object is a digest of 64 characters; the one way
    its calculation fails is the [TypeError] of a [null] that
    [sortObject] reaches. *)
Theorem calculateCacheKey_object (props : list (string * JsValue)) :
  match calculateCacheKey (JObj props) with
  | Ok key => String.length key = 64 ∧ reaches_null (JObj props) = false
  | Throw e => e = null_to_object ∧ reaches_null (JObj props) = true
  end.
Proof.
  unfold calculateCacheKey.
  pose proof (sortObject_is_throw (JObj props)) as Hthrow.
  rewrite sortObject_object_eq in *.
  destruct (forallb sortable props); simpl in *.
  - split; [apply sha256_hex_length | done].
  - done.
Qed.

End ReuseMore.

(** ** The further properties on concrete worlds *)

Module More.
Import Sample.

Definition asset : StagedAsset := {| stagedPath := "/out/asset.0a"; assetHash := "0a" |}.

(** A [calcFn] that stages [asset], and one that fails; each counts its
    invocations in the world. *)
Definition staging_ok : St nat StagedAsset := fun n => (Ok asset, S n).
Definition staging_fails : St nat StagedAsset :=
  fun n => (Throw (Foreign "no such file"), S n).

Lemma obtain_then_obtain_witness :
  obtain "k" staging_fails ({["k" := asset]}, 1) = (Ok asset, ({["k" := asset]}, 1)).
Proof.
  apply (obtain_then_obtain "k" staging_ok staging_fails ∅ 0). reflexivity.
Defined.

Lemma obtain_keeps_entries_witness :
  (∀ k v, ({["a" := asset]} : gmap string StagedAsset) !! k = Some v →
          (<["k" := asset]> {["a" := asset]} : gmap string StagedAsset) !! k = Some v)
  ∧ (∀ k, k ≠ "k" →
          (<["k" := asset]> {["a" := asset]} : gmap string StagedAsset) !! k
          = ({["a" := asset]} : gmap string StagedAsset) !! k).
Proof.
  apply (obtain_keeps_entries "k" staging_ok {["a" := asset]} _ 0 1 (Ok asset)).
  reflexivity.
Defined.

(** The output of a bundling in its temporary directory. *)
Definition bundled : World :=
  world_of [("/out/bundling-temp-k0", Placement.staged_dir)].

Lemma stageAsset_moves_witness :
  ∃ w1, stageAsset (H := env) (staging OUTPUT None)
          "/out/bundling-temp-k0" "/out/asset.0a" move bundled = (Ok (), w1)
    ∧ files w1 !! "/out/asset.0a" = Some Placement.staged_dir
    ∧ files w1 !! "/out/bundling-temp-k0" = None.
Proof.
  pose proof (stageAsset_moves (H := env) (staging OUTPUT None)
                "/out/bundling-temp-k0" "/out/asset.0a" bundled eq_refl) as Hm.
  assert (files bundled !! "/out/bundling-temp-k0" = Some Placement.staged_dir)
    as Hsrc by reflexivity.
  rewrite Hsrc in Hm. destruct Hm as (w1 & Hm & Htgt & Hgone & _).
  exists w1. split_and!; assumption.
Defined.

Lemma stageAsset_copies_file_witness :
  ∃ w1, stageAsset (H := env) (staging SOURCE None)
          "/src/app" "/out/asset.0a" copy Placement.with_source = (Ok (), w1)
    ∧ files w1 !! "/out/asset.0a" = Some (File 420 "payload")
    ∧ (∀ p, p ≠ "/out/asset.0a" → files w1 !! p = files Placement.with_source !! p)
    ∧ trace w1 = (trace Placement.with_source ++ [CopyFile "/src/app" "/out/asset.0a"])%list.
Proof.
  apply (stageAsset_copies_file (H := env) (staging SOURCE None)
           "/src/app" "/out/asset.0a" Placement.with_source 420 "payload");
    reflexivity.
Defined.

(** A socket where the source should be. *)
Definition with_socket : World := world_of [("/src/app", Special 384)].

Lemma stageAsset_copy_unsupported_witness :
  stageAsset (H := env) (staging SOURCE None) "/src/app" "/out/asset.0a" copy with_socket
  = (Throw (UnknownFileType "/src/app"), with_socket).
Proof.
  apply (proj1 (stageAsset_copy_unsupported (H := env) (staging SOURCE None)
                  "/src/app" "/out/asset.0a" with_socket eq_refl) 384%N).
  reflexivity.
Defined.

Definition copied : World :=
  (stageAsset (H := env) (staging SOURCE None)
     "/src/app" "/out/asset.0a" copy Placement.with_source).2.

Lemma stageAsset_idempotent_witness :
  stageAsset (H := env) (staging SOURCE None) "/src/app" "/out/asset.0a" copy copied
  = (Ok (), copied).
Proof.
  apply (proj1 (stageAsset_idempotent (H := env) (staging SOURCE None)
                  "/src/app" "/out/asset.0a" copy Placement.with_source copied
                  eq_refl)).
  eexists. reflexivity.
Defined.

Lemma calculateHash_seed_only_witness :
  calculateHash (H := env) (staging CUSTOM (Some "v1")) CUSTOM None None
    Placement.with_source
  = (Ok (digest ("v1" +:+ EmptyString)), Placement.with_source)
  ∧ (calculateHash (H := env) (staging CUSTOM (Some "v1")) CUSTOM None None
       Placement.with_source).1
    = (calculateHash (H := env) (staging CUSTOM (Some "v1")) CUSTOM None None
         (world_of [])).1.
Proof.
  apply (calculateHash_seed_only (H := env) (staging CUSTOM (Some "v1")) "v1"
           None None Placement.with_source (world_of [])).
  reflexivity.
Defined.

(** The fingerprint of the source file and the path it is staged at. *)
Definition file_hash : string := digest "file:payload".
Definition file_staged : string := "/out/asset." +:+ file_hash.

Lemma stageByCopying_stages_file_witness :
  ∃ w1, stageByCopying (H := env) (staging SOURCE None) false Placement.with_source
        = (Ok {| stagedPath := file_staged; assetHash := file_hash |}, w1)
    ∧ files w1 !! file_staged = Some (File 420 "payload").
Proof.
  destruct (stageByCopying_stages_file (H := env) (staging SOURCE None)
              Placement.with_source file_hash 420 "payload"
              ltac:(vm_compute; reflexivity) ltac:(vm_compute; reflexivity)
              ltac:(vm_compute; reflexivity))
    as (w1 & Hstage & Hfile & _).
  exists w1. split; assumption.
Defined.

Definition staged_before : World :=
  world_of [("/src/app", File 420 "payload"); (file_staged, File 420 "payload")].

Lemma stageByCopying_reuses_witness :
  stageByCopying (H := env) (staging SOURCE None) false staged_before
  = (Ok {| stagedPath := file_staged; assetHash := file_hash |}, staged_before).
Proof.
  apply (stageByCopying_reuses (H := env) (staging SOURCE None) staged_before file_hash
           ltac:(vm_compute; reflexivity)).
  eexists. vm_compute. reflexivity.
Defined.

Definition failed : Result unit * World :=
  bundle (H := env) (staging OUTPUT None) Bundling.failing Bundling.temp_dir
    Bundling.after_failed_run.

Lemma stageByBundling_bundle_failure_witness :
  stageByBundling (H := env) (staging OUTPUT None) Bundling.failing false
    Bundling.after_failed_run
  = (Throw (BundleFailed "Stack/Asset" "/out/bundling-temp-k0-error"
              (Foreign "exit status 1")), failed.2).
Proof.
  apply (stageByBundling_bundle_failure (H := env) (staging OUTPUT None)
           Bundling.failing Bundling.after_failed_run failed.2 None).
  - reflexivity.
  - vm_compute. reflexivity.
Defined.

Definition output_hash : string := digest "dir:index.js".
Definition output_staged : string := "/out/asset." +:+ output_hash.

Definition bundled_output : World :=
  (bundle (H := env) (staging OUTPUT None) Bundling.working Bundling.temp_dir
     (world_of [])).2.

Lemma stageByBundling_output_hash_witness :
  ∃ w2, stageByBundling (H := env) (staging OUTPUT None) Bundling.working false
          (world_of [])
        = (Ok {| stagedPath := output_staged; assetHash := output_hash |}, w2)
    ∧ files w2 !! Bundling.temp_dir = None
    ∧ files w2 !! output_staged = Some (Dir 511 [("index.js", File 420 "code")]).
Proof.
  destruct (stageByBundling_output_hash (H := env) (staging OUTPUT None)
              Bundling.working (world_of []) bundled_output
              (Dir 511 [("index.js", File 420 "code")]) output_hash
              (or_intror eq_refl) eq_refl
              ltac:(intros Heq; vm_compute in Heq; discriminate Heq)
              ltac:(vm_compute; reflexivity) ltac:(vm_compute; reflexivity)
              ltac:(vm_compute; reflexivity))
    as (w2 & Hstage & Htemp & Hout & _).
  exists w2. split_and!; [exact Hstage | exact Htemp |].
  refine (eq_trans Hout _). vm_compute. reflexivity.
Defined.

Definition silent_run : World :=
  (bundle_try (H := env) (staging OUTPUT None) Bundling.silent Bundling.temp_dir
     (set_files <[Bundling.temp_dir := Dir 511 []]> (world_of []))).2.

Lemma bundle_after_empty_output_witness :
  bundle (H := env) (staging OUTPUT None) Bundling.silent Bundling.temp_dir silent_run
  = (Ok (), silent_run).
Proof.
  apply (bundle_after_empty_output (H := env) (staging OUTPUT None) Bundling.silent
           Bundling.temp_dir (world_of []) silent_run None);
    [reflexivity | vm_compute; reflexivity | vm_compute; reflexivity |].
  eexists. vm_compute. reflexivity.
Defined.

Lemma bundle_after_failure_witness :
  files failed.2 !! Bundling.temp_dir = None
  ∧ ∃ rest,
      trace (bundle (H := env) (staging OUTPUT None) Bundling.failing
               Bundling.temp_dir failed.2).2
      = (trace failed.2 ++ announcement (staging OUTPUT None) :: rest)%list.
Proof.
  apply (bundle_after_failure (H := env) (staging OUTPUT None) Bundling.failing
           Bundling.temp_dir Bundling.after_failed_run
           (bundle_try (H := env) (staging OUTPUT None) Bundling.failing
              Bundling.temp_dir
              (set_files <[Bundling.temp_dir := Dir 511 []]> Bundling.after_failed_run)).2
           (Foreign "exit status 1") (Dir 511 Bundling.partial_output));
    vm_compute; reflexivity.
Defined.

(** A local bundler that writes one file and takes the job. *)
Definition local_bundler : ILocalBundling := {|
  tryBundle := fun d fs => (Ok true, <[d := Dir 511 [("local.js", File 420 "code")]]> fs);
|}.

Definition locally : BundlingOptions := {|
  image := image_writing [] (Throw (Foreign "no docker"));
  command := None;
  volumes := None;
  environment := None;
  workingDirectory := None;
  user := None;
  local := Some local_bundler;
|}.

Lemma bundle_try_local_witness :
  bundle_try (H := env) (staging OUTPUT None) locally Bundling.temp_dir (world_of [])
  = (Ok (Some true),
     {| files := {[Bundling.temp_dir := Dir 511 [("local.js", File 420 "code")]]};
        trace := [announcement (staging OUTPUT None); TryBundle Bundling.temp_dir] |}).
Proof.
  apply (bundle_try_local (H := env) (staging OUTPUT None) locally Bundling.temp_dir
           (world_of []) local_bundler); reflexivity.
Defined.

(** A container that is to run as the user [node], with one extra
    volume. *)
Definition as_node : BundlingOptions := {|
  image := image_writing [("index.js", File 420 "code")] (Ok ());
  command := Some ["build"];
  volumes := Some [ {| hostPath := "/cache"; containerPath := "/root/.cache" |} ];
  environment := None;
  workingDirectory := None;
  user := Some "node";
  local := None;
|}.

Lemma bundle_try_image_witness :
  trace (bundle_try (H := env) (staging OUTPUT None) as_node
           Bundling.temp_dir (world_of [])).2
  = [announcement (staging OUTPUT None);
     ImageRun {| run_command := Some ["build"];
                 run_user := "node";
                 run_volumes :=
                   [ {| hostPath := "/src/app"; containerPath := "/asset-input" |};
                     {| hostPath := Bundling.temp_dir; containerPath := "/asset-output" |};
                     {| hostPath := "/cache"; containerPath := "/root/.cache" |} ];
                 run_environment := None;
                 run_workingDirectory := "/asset-input" |}].
Proof.
  rewrite (bundle_try_image (H := env) (staging OUTPUT None) as_node
             Bundling.temp_dir (world_of []));
    [vm_compute; reflexivity | intros l Hl; discriminate Hl].
Defined.

(** The options of a bundling, with a property named [__proto__] among
    them, as [JSON.parse] makes one. *)
Definition two_props : list (string * JsValue) :=
  [("user", JStr "1000"); ("__proto__", JObj [("x", JNum 1)]);
   ("command", JArr [JStr "build"])].

Lemma sortObject_keeps_properties_witness :
  ∃ qs, JObj [("command", JArr [JStr "build"]); ("user", JStr "1000")] = JObj qs
    ∧ qs.*1 ≡ₚ filter (fun k => k ≠ "__proto__") two_props.*1
    ∧ "__proto__" ∉ qs.*1
    ∧ (∀ k v, (k, v) ∈ two_props →
         ∃ x, sortObject v = Ok x ∧ (k ≠ "__proto__" → (k, x) ∈ qs))
    ∧ (∀ k x, (k, x) ∈ qs → ∃ v, (k, v) ∈ two_props ∧ sortObject v = Ok x).
Proof.
  apply (sortObject_keeps_properties two_props).
  - apply (bool_decide_unpack _). vm_compute. exact I.
  - vm_compute. reflexivity.
Defined.

Lemma sortObject_idempotent_witness :
  sortObject Keys.props_2 = Ok Keys.props_2.
Proof.
  apply (sortObject_idempotent Keys.props_1 Keys.props_2);
    [reflexivity | vm_compute; reflexivity].
Defined.

(** A tree with one stack, the asset at [/src/app], staging enabled. *)
Definition one_stack : Scope := {|
  scope_assetOutdir := Some "/out";
  scope_bundlingStacks := None;
  scope_stackName := "Stack";
  scope_disableStaging := JUndefined;
  scope_path := "Stack/Asset";
|}.

Definition staging_disabled : Scope := {|
  scope_assetOutdir := Some "/out";
  scope_bundlingStacks := None;
  scope_stackName := "Stack";
  scope_disableStaging := JBool true;
  scope_path := "Stack/Asset";
|}.

Definition plain_props : AssetStagingProps := {|
  props_sourcePath := "/src/app";
  props_fingerprint := no_options;
  props_assetHashType := None;
  props_assetHash := None;
  props_bundling := None;
|}.

Definition sample_resolve (p : string) : string := p.
Definition sample_minimatch (name pattern : string) : bool :=
  bool_decide (pattern = "*") || bool_decide (pattern = name).
Definition sample_hashTypeValue (t : AssetHashType) : string :=
  match t with
  | SOURCE => "source" | BUNDLE => "bundle" | OUTPUT => "output" | CUSTOM => "custom"
  end.
Definition sample_bundling_value (b : BundlingOptions) : JsValue :=
  JObj [("command", match command b with
                    | Some l => JArr (JStr <$> l)
                    | None => JUndefined
                    end)].

Definition sample_construct :=
  construct (H := env) sample_resolve sample_minimatch sample_hashTypeValue
    sample_bundling_value.

Lemma construct_again_witness :
  ∃ this staged s1,
    sample_construct one_stack plain_props (∅, Placement.with_source)
    = (inr (this, staged), s1)
    ∧ sample_construct (at_path one_stack "Other/Asset") plain_props s1
      = (inr (with_node_path this "Other/Asset", staged), s1).
Proof.
  destruct (sample_construct one_stack plain_props (∅, Placement.with_source))
    as [[err|[this staged]] s1] eqn:Hfirst.
  - vm_compute in Hfirst. discriminate Hfirst.
  - exists this, staged, s1. split; [reflexivity|].
    apply (construct_again (H := env) sample_resolve sample_minimatch
             sample_hashTypeValue sample_bundling_value one_stack plain_props
             (∅, Placement.with_source) s1 this staged "Other/Asset" Hfirst).
Defined.

Lemma construct_memo_witness :
  ∃ this staged cache1 w1,
    sample_construct one_stack plain_props (∅, Placement.with_source)
    = (inr (this, staged), (cache1, w1))
    ∧ cache1 !! cacheKey this = Some staged.
Proof.
  destruct (sample_construct one_stack plain_props (∅, Placement.with_source))
    as [[err|[this staged]] [cache1 w1]] eqn:Hfirst.
  - vm_compute in Hfirst. discriminate Hfirst.
  - exists this, staged, cache1, w1. split; [reflexivity|].
    apply (construct_memo (H := env) sample_resolve sample_minimatch
             sample_hashTypeValue sample_bundling_value one_stack plain_props
             ∅ cache1 Placement.with_source w1 (inr (this, staged)) Hfirst).
Defined.

Lemma construct_skipped_witness :
  ∃ this staged cache1 w1,
    sample_construct staging_disabled plain_props (∅, Placement.with_source)
    = (inr (this, staged), (cache1, w1))
    ∧ stagedPath staged = "/src/app" ∧ w1 = Placement.with_source.
Proof.
  destruct (sample_construct staging_disabled plain_props (∅, Placement.with_source))
    as [[err|[this staged]] [cache1 w1]] eqn:Hfirst.
  - vm_compute in Hfirst. discriminate Hfirst.
  - exists this, staged, cache1, w1. split; [reflexivity|].
    apply (construct_skipped (H := env) sample_resolve sample_minimatch
             sample_hashTypeValue sample_bundling_value staging_disabled plain_props
             ∅ cache1 Placement.with_source w1 this staged Hfirst);
      [reflexivity | apply lookup_empty].
Defined.

Definition source_dir : World :=
  world_of [("/src/app", Dir 493 [("index.js", File 420 "code")])].

Lemma stageAsset_copies_directory_witness :
  stageAsset (H := env) (staging SOURCE None) "/src/app" "/out/asset.0a" copy source_dir
  = (Ok (),
     {| files := <["/out/asset.0a" := Dir 493 [("index.js", File 420 "code")]]>
                   (<["/out/asset.0a" := Dir default_dir_mode []]> (files source_dir));
        trace := [CopyDirectory "/src/app" "/out/asset.0a"] |}).
Proof.
  rewrite (stageAsset_copies_directory (H := env) (staging SOURCE None)
             "/src/app" "/out/asset.0a" source_dir 493
             [("index.js", File 420 "code")] eq_refl eq_refl).
  reflexivity.
Defined.

Definition bundled_before : World :=
  world_of [("/src/app", File 420 "payload");
            (Bundling.staged_path, Dir 511 [("index.js", File 420 "code")])].

Lemma stageByBundling_reuses_witness :
  stageByBundling (H := env) (staging SOURCE None) Bundling.working false bundled_before
  = (Ok {| stagedPath := Bundling.staged_path; assetHash := Bundling.source_hash |},
     bundled_before).
Proof.
  apply (stageByBundling_reuses (H := env) (staging SOURCE None) Bundling.working
           bundled_before Bundling.source_hash (or_introl eq_refl)
           ltac:(vm_compute; reflexivity)).
  eexists. vm_compute. reflexivity.
Defined.

End More.
